(** * Index generator of the devfile registry: model and properties

    A shallow embedding of [index/generator/library] (the registry walker,
    the version merge step, the validation policy, the supplemental entry
    loader and the remote stack fetcher) together with the properties its
    specification states about it. *)

From stdpp Require Import gmap strings list.

Local Open Scope string_scope.
Local Open Scope list_scope.

(** ** Errors

    Go's [error] values.  The three [Missing*Error] struct types of the
    library are kept apart from [fmt.Errorf] values because the supplemental
    loader switches on them; [NoMatchingRefSpecError] is go-git's;
    [PathError] stands for what the [os] package reports for a path that
    does not exist, and [OtherPathError] for its other errors (not a
    directory, file name too long, permission denied).  [RuntimePanic] is
    no value of the library: it stands for a run
    that panics and, carried by [Err], goes up through every caller, none
    of which recovers. *)

Inductive error : Type :=
  | Errorf (msg : string)
  | MissingArchError (devfile : string)
  | MissingProviderError (devfile : string)
  | MissingSupportUrlError (devfile : string)
  | NoMatchingRefSpecError
  | PathError (op : string) (name : string)
  | OtherPathError (op : string) (name : string) (reason : string)
  | RuntimePanic (msg : string).

Definition newline : string := String (Ascii.ascii_of_nat 10) EmptyString.

Definition Error (e : error) : string :=
  match e with
  | Errorf msg => msg
  | MissingArchError d =>
      "the " +:+ d +:+ " devfile has no architecture(s) mentioned" +:+ newline
  | MissingProviderError d =>
      "the " +:+ d +:+ " devfile has no provider mentioned" +:+ newline
  | MissingSupportUrlError d =>
      "the " +:+ d +:+ " devfile has no supportUrl mentioned" +:+ newline
  | NoMatchingRefSpecError => "couldn't find remote ref"
  | PathError op name => op +:+ " " +:+ name +:+ ": no such file or directory"
  | OtherPathError op name reason => op +:+ " " +:+ name +:+ ": " +:+ reason
  | RuntimePanic msg => "panic: " +:+ msg
  end.

(** [os.IsNotExist] *)
Definition IsNotExist (err : error) : bool :=
  match err with
  | PathError _ _ => true
  | _ => false
  end.

Inductive result (A : Type) : Type :=
  | Ok (a : A)
  | Err (e : error).
Arguments Ok {A} a.
Arguments Err {A} e.

Definition bind {A B} (r : result A) (k : A -> result B) : result B :=
  match r with
  | Ok a => k a
  | Err e => Err e
  end.

Notation "x <- r ;; k" := (bind r (fun x => k))
  (at level 100, r at next level, right associativity, only parsing).

Definition isOk {A} (r : result A) : bool :=
  match r with Ok _ => true | Err _ => false end.

Definition resultMap {A B} (f : A -> B) (r : result A) : result B :=
  match r with
  | Ok a => Ok (f a)
  | Err e => Err e
  end.

(** A call that may panic instead of returning. *)
Inductive outcome (A : Type) : Type :=
  | Returns (a : A)
  | Panics (msg : string).
Arguments Returns {A} a.
Arguments Panics {A} msg.

Definition nilDereference : string :=
  "runtime error: invalid memory address or nil pointer dereference".

(** [%v] of a [[]error] prints the messages between brackets. *)
Definition showErrors (es : list error) : string :=
  "[" +:+ String.concat " " (map Error es) +:+ "]".

(** ** The schema package

    Modelled from the spec: the declarations of [schema.Schema],
    [schema.Version], [schema.Git] and [schema.Devfile] are not part of the
    sources at hand; the records below carry the fields the library reads or
    writes and the ones section 3 of the specification lists.  A nil map is
    [None]; a slice the code compares with nil is an [option] as well, the
    others are plain lists (nil is the empty list). *)

Module schema.

Definition DevfileType := string.
Definition SampleDevfileType : DevfileType := "sample".
Definition StackDevfileType : DevfileType := "stack".

Record Git : Type := mkGit {
  Remotes : gmap string string;
  Url : string;
  RemoteName : string;
  SubDir : string;
  Revision : string }.

Record Version : Type := mkVersion {
  vVersion : string;
  vSchemaVersion : string;
  vDefault : bool;
  vGit : option Git;
  vDescription : string;
  vTags : list string;
  vArchitectures : list string;
  vIcon : string;
  vLinks : option (gmap string string);
  vResources : list string;
  vStarterProjects : list string }.

Record Schema : Type := mkSchema {
  Name : string;
  Version' : string;
  DisplayName : string;
  Description : string;
  Type' : DevfileType;
  Tags : list string;
  Architectures : list string;
  Icon : string;
  ProjectType : string;
  Language : string;
  Links : option (gmap string string);
  Resources : option (list string);
  StarterProjects : list string;
  Git' : option Git;
  Provider : string;
  SupportUrl : string;
  Versions : list Version }.

Record StarterProject : Type := mkStarterProject { spName : string }.

Record Devfile : Type := mkDevfile {
  Meta : Schema;
  dStarterProjects : list StarterProject;
  dSchemaVersion : string }.

Record ExtraDevfileEntries : Type := mkExtra {
  Samples : list Schema;
  Stacks : list Schema }.

(** The zero values [schema.Version{}] and [var x schema.Schema]. *)
Definition zeroVersion : Version :=
  mkVersion "" "" false None "" [] [] "" None [] [].
Definition zeroSchema : Schema :=
  mkSchema "" "" "" "" "" [] [] "" "" "" None None [] None "" "" [].

End schema.
Import schema.

(** Field assignments. *)
Definition setName (x : string) (s : Schema) : Schema :=
  mkSchema x (Version' s) (DisplayName s) (Description s) (Type' s) (Tags s)
    (Architectures s) (Icon s) (ProjectType s) (Language s) (Links s)
    (Resources s) (StarterProjects s) (Git' s) (Provider s) (SupportUrl s)
    (Versions s).
Definition setDisplayName (x : string) (s : Schema) : Schema :=
  mkSchema (Name s) (Version' s) x (Description s) (Type' s) (Tags s)
    (Architectures s) (Icon s) (ProjectType s) (Language s) (Links s)
    (Resources s) (StarterProjects s) (Git' s) (Provider s) (SupportUrl s)
    (Versions s).
Definition setDescription (x : string) (s : Schema) : Schema :=
  mkSchema (Name s) (Version' s) (DisplayName s) x (Type' s) (Tags s)
    (Architectures s) (Icon s) (ProjectType s) (Language s) (Links s)
    (Resources s) (StarterProjects s) (Git' s) (Provider s) (SupportUrl s)
    (Versions s).
Definition setType (x : DevfileType) (s : Schema) : Schema :=
  mkSchema (Name s) (Version' s) (DisplayName s) (Description s) x (Tags s)
    (Architectures s) (Icon s) (ProjectType s) (Language s) (Links s)
    (Resources s) (StarterProjects s) (Git' s) (Provider s) (SupportUrl s)
    (Versions s).
Definition setTags (x : list string) (s : Schema) : Schema :=
  mkSchema (Name s) (Version' s) (DisplayName s) (Description s) (Type' s) x
    (Architectures s) (Icon s) (ProjectType s) (Language s) (Links s)
    (Resources s) (StarterProjects s) (Git' s) (Provider s) (SupportUrl s)
    (Versions s).
Definition setArchitectures (x : list string) (s : Schema) : Schema :=
  mkSchema (Name s) (Version' s) (DisplayName s) (Description s) (Type' s)
    (Tags s) x (Icon s) (ProjectType s) (Language s) (Links s)
    (Resources s) (StarterProjects s) (Git' s) (Provider s) (SupportUrl s)
    (Versions s).
Definition setIcon (x : string) (s : Schema) : Schema :=
  mkSchema (Name s) (Version' s) (DisplayName s) (Description s) (Type' s)
    (Tags s) (Architectures s) x (ProjectType s) (Language s) (Links s)
    (Resources s) (StarterProjects s) (Git' s) (Provider s) (SupportUrl s)
    (Versions s).
Definition setProjectType (x : string) (s : Schema) : Schema :=
  mkSchema (Name s) (Version' s) (DisplayName s) (Description s) (Type' s)
    (Tags s) (Architectures s) (Icon s) x (Language s) (Links s)
    (Resources s) (StarterProjects s) (Git' s) (Provider s) (SupportUrl s)
    (Versions s).
Definition setLanguage (x : string) (s : Schema) : Schema :=
  mkSchema (Name s) (Version' s) (DisplayName s) (Description s) (Type' s)
    (Tags s) (Architectures s) (Icon s) (ProjectType s) x (Links s)
    (Resources s) (StarterProjects s) (Git' s) (Provider s) (SupportUrl s)
    (Versions s).
Definition setProvider (x : string) (s : Schema) : Schema :=
  mkSchema (Name s) (Version' s) (DisplayName s) (Description s) (Type' s)
    (Tags s) (Architectures s) (Icon s) (ProjectType s) (Language s) (Links s)
    (Resources s) (StarterProjects s) (Git' s) x (SupportUrl s)
    (Versions s).
Definition setSupportUrl (x : string) (s : Schema) : Schema :=
  mkSchema (Name s) (Version' s) (DisplayName s) (Description s) (Type' s)
    (Tags s) (Architectures s) (Icon s) (ProjectType s) (Language s) (Links s)
    (Resources s) (StarterProjects s) (Git' s) (Provider s) x
    (Versions s).
Definition setVersions (x : list Version) (s : Schema) : Schema :=
  mkSchema (Name s) (Version' s) (DisplayName s) (Description s) (Type' s)
    (Tags s) (Architectures s) (Icon s) (ProjectType s) (Language s) (Links s)
    (Resources s) (StarterProjects s) (Git' s) (Provider s) (SupportUrl s)
    x.

Definition setDefault (x : bool) (v : Version) : Version :=
  mkVersion (vVersion v) (vSchemaVersion v) x (vGit v) (vDescription v)
    (vTags v) (vArchitectures v) (vIcon v) (vLinks v) (vResources v)
    (vStarterProjects v).
Definition setvLinks (x : option (gmap string string)) (v : Version) : Version :=
  mkVersion (vVersion v) (vSchemaVersion v) (vDefault v) (vGit v)
    (vDescription v) (vTags v) (vArchitectures v) (vIcon v) x (vResources v)
    (vStarterProjects v).
Definition setvSchemaVersion (x : string) (v : Version) : Version :=
  mkVersion (vVersion v) x (vDefault v) (vGit v) (vDescription v)
    (vTags v) (vArchitectures v) (vIcon v) (vLinks v) (vResources v)
    (vStarterProjects v).
Definition setvStarterProjects (x : list string) (v : Version) : Version :=
  mkVersion (vVersion v) (vSchemaVersion v) (vDefault v) (vGit v)
    (vDescription v) (vTags v) (vArchitectures v) (vIcon v) (vLinks v)
    (vResources v) x.
Definition setvResources (x : list string) (v : Version) : Version :=
  mkVersion (vVersion v) (vSchemaVersion v) (vDefault v) (vGit v)
    (vDescription v) (vTags v) (vArchitectures v) (vIcon v) (vLinks v)
    x (vStarterProjects v).

(** ** Paths and the file system

    A path is its list of components, the empty list being the directory
    the relative paths start from; [pjoin] is [filepath.Join] (and
    [path.Join]) of a directory and one element that is a single component,
    a constant of the library or a name read from a directory: an empty
    element is dropped.  [Join] is the same function at an element read from
    a YAML file, which may hold any string: the element is split at its
    slashes and the result is cleaned as [path.Clean] does.

    The file system is an association list from paths to nodes, in listing
    order.  A regular file holds the value its YAML text denotes, since the
    YAML decoder is outside the library. *)

Abbreviation path := (list string).

Definition pjoin (dir : path) (elem : string) : path :=
  if bool_decide (elem = "") then dir else dir ++ [elem].

Definition pathString (p : path) : string := String.concat "/" p.

(** The components of a string, cut at each slash (the character 47);
    [current] is the component under way. *)
Fixpoint splitPath (current : string) (s : string) : list string :=
  match s with
  | EmptyString => [current]
  | String c rest =>
      if bool_decide (c = Ascii.ascii_of_nat 47) then
        current :: splitPath "" rest
      else splitPath (current +:+ String c EmptyString) rest
  end.

(** One component of [path.Clean]: an empty one and [.] are dropped, [..]
    takes away the component before it, unless there is none or it is [..]
    itself (the path climbs) or the root (written as a first component that
    is empty). *)
Definition cleanStep (acc : path) (c : string) : path :=
  if bool_decide (c = "") || bool_decide (c = ".") then acc
  else if bool_decide (c = "..") then
    match last acc with
    | None => acc ++ [".."]
    | Some l =>
        if bool_decide (l = "..") then acc ++ [".."]
        else if bool_decide (l = "") then acc
        else removelast acc
    end
  else acc ++ [c].

Definition Join (dir : path) (elem : string) : path :=
  foldl cleanStep dir (splitPath "" elem).

Inductive FileData : Type :=
  | DevfileYaml (d : Devfile)
  | StackYaml (s : Schema)
  | ExtraYaml (e : ExtraDevfileEntries)
  | OtherData.

Inductive node : Type :=
  | Dir
  | File (data : FileData).

Abbreviation FS := (list (path * node)).

Record FileInfo : Type := mkFileInfo { fiName : string; IsDir : bool }.

Fixpoint fsLookup (fs : FS) (p : path) : option node :=
  match fs with
  | [] => None
  | (q, n) :: fs' => if bool_decide (q = p) then Some n else fsLookup fs' p
  end.

Fixpoint hasPrefix (p q : path) : bool :=
  match p, q with
  | [], _ => true
  | a :: p', b :: q' => bool_decide (a = b) && hasPrefix p' q'
  | _ :: _, [] => false
  end.

(** [childName dir q] is the name of [q] when [q] is an entry of [dir]. *)
Fixpoint childName (dir q : path) : option string :=
  match dir, q with
  | [], [n] => Some n
  | a :: dir', b :: q' => if bool_decide (a = b) then childName dir' q' else None
  | _, _ => None
  end.

Definition isDirNode (n : node) : bool :=
  match n with Dir => true | File _ => false end.

Definition entries (fs : FS) (dir : path) : list FileInfo :=
  omap (fun e : path * node =>
          match childName dir e.1 with
          | Some n => Some (mkFileInfo n (isDirNode e.2))
          | None => None
          end) fs.

Definition isFileNode (n : option node) : bool :=
  match n with Some (File _) => true | _ => false end.

(** A component of the path before its last one is a regular file. *)
Definition underFile (fs : FS) (p : path) : bool :=
  existsb (fun k => isFileNode (fsLookup fs (take k p)))
    (seq 1 (length p - 1)).

(** [os.Stat] also fails for reasons that the association list does not
    hold: a name that is too long, a directory that may not be searched, a
    loop of links.  [statFault p] is the text of such an error at [p], if
    there is one. *)
Class StatPolicy : Type := statFault : path -> option string.

(** [os.Stat] and what the library builds on it.  Besides a path that does
    not exist, [os.Stat] fails where [statFault] tells and on a path that
    runs through a regular file, with errors that [os.IsNotExist] does not
    accept. *)
Definition Stat `{!StatPolicy} (fs : FS) (p : path) : result node :=
  match statFault p with
  | Some reason => Err (OtherPathError "stat" (pathString p) reason)
  | None =>
      if underFile fs p
      then Err (OtherPathError "stat" (pathString p) "not a directory")
      else
        match fsLookup fs p with
        | Some n => Ok n
        | None => Err (PathError "stat" (pathString p))
        end
  end.

Definition fileExists `{!StatPolicy} (fs : FS) (filepath : path) : bool :=
  match Stat fs filepath with
  | Err err => if IsNotExist err then false else true
  | Ok _ => true
  end.

Definition dirExists `{!StatPolicy} (fs : FS) (dirpath : path)
    : outcome (option error) :=
  match Stat fs dirpath with
  | Err err =>
      if IsNotExist err then
        Returns (Some (Errorf ("path: " +:+ pathString dirpath
                               +:+ " does not exist: " +:+ Error err)))
      else
        (* [dir] is nil, and [dir.IsDir()] dereferences it *)
        Panics nilDereference
  | Ok dir =>
      if negb (isDirNode dir)
      then Returns (Some (Errorf (pathString dirpath +:+ " is not a directory")))
      else Returns None
  end.

(** [ioutil.ReadDir], [ioutil.ReadFile], and [Open] followed by [Readdir]. *)
Definition ReadDir (fs : FS) (dir : path) : result (list FileInfo) :=
  match fsLookup fs dir with
  | Some Dir => Ok (entries fs dir)
  | Some (File _) => Err (PathError "readdirent" (pathString dir))
  | None => Err (PathError "open" (pathString dir))
  end.

Definition ReadFile (fs : FS) (p : path) : result FileData :=
  match fsLookup fs p with
  | Some (File data) => Ok data
  | Some Dir => Err (PathError "read" (pathString p))
  | None => Err (PathError "open" (pathString p))
  end.



(** In checks if the value is in the array *)
Fixpoint inArray (arr : list string) (value : string) : bool :=
  match arr with
  | [] => false
  | item :: arr' => if bool_decide (item = value) then true else inArray arr' value
  end.

(** ** Interrupted extraction: [cleanDir] and the signal handler *)


Section Cleanup.

(** [removeFails p] tells whether the file system refuses to remove [p]
    (a permission, a busy mount point); [RemoveAll] is [os.RemoveAll],
    which succeeds on a path that does not exist. *)
Context `{!RemovePolicy}.





End Cleanup.

(** ** External collaborators of the index build

    The devfile library's parser and validator, and the yaml codec used to
    re-read a devfile's metadata as a version, are outside the library: the
    model takes them as an interface. *)

Record DevfileMetadata : Type := mkMetadata {
  mdName : string;
  mdDisplayName : string;
  mdLanguage : string;
  mdProjectType : string }.

Class DevfileLibrary : Type := {
  (** [devfileParser.ParseDevfileAndValidate]: the metadata of the devfile
      object, or the validation error *)
  ParseDevfileAndValidate : FS -> path -> result DevfileMetadata;
  (** [devfileParser.ParseAndValidate], of which only the error is used *)
  ParseAndValidate : FS -> path -> option error;
  (** [yaml.Marshal] of a [schema.Schema] followed by [yaml.Unmarshal] into
      a [schema.Version] *)
  metaAsVersion : Schema -> result Version }.

Definition devfile : string := "devfile.yaml".
Definition devfileHidden : string := ".devfile.yaml".
Definition extraDevfileEntries : string := "extraDevfileEntries.yaml".
Definition stackYaml : string := "stack.yaml".

(** [yaml.Unmarshal] of a file's bytes into each of the three targets. *)
Definition unmarshalDevfile (bytes : FileData) : result Devfile :=
  match bytes with
  | DevfileYaml d => Ok d
  | _ => Err (Errorf "yaml: unmarshal errors")
  end.

Definition unmarshalSchema (bytes : FileData) : result Schema :=
  match bytes with
  | StackYaml s => Ok s
  | _ => Err (Errorf "yaml: unmarshal errors")
  end.

Definition unmarshalExtra (bytes : FileData) : result ExtraDevfileEntries :=
  match bytes with
  | ExtraYaml e => Ok e
  | _ => Err (Errorf "yaml: unmarshal errors")
  end.

(** ** Validation policy *)

Definition validateIndexComponent (indexComponent : Schema)
    (componentType : DevfileType) : option error :=
  let kindErr : option error :=
    if bool_decide (componentType = StackDevfileType) then
      if bool_decide (Name indexComponent = "") then
        Some (Errorf "index component name is not initialized")
      else if bool_decide (Links indexComponent = None) then
        Some (Errorf "index component links are empty")
      else if bool_decide (Resources indexComponent = None) then
        Some (Errorf "index component resources are empty")
      else None
    else if bool_decide (componentType = SampleDevfileType) then
      match Git' indexComponent with
      | None => Some (Errorf "index component git is empty")
      | Some git =>
          if bool_decide (1 < size (Remotes git)) then
            Some (Errorf "index component has multiple remotes")
          else None
      end
    else None in
  match kindErr with
  | Some err => Some err
  | None =>
      (* Fields to be validated for both stacks and samples *)
      if bool_decide (Provider indexComponent = "") then
        Some (MissingProviderError (Name indexComponent))
      else if bool_decide (SupportUrl indexComponent = "") then
        Some (MissingSupportUrlError (Name indexComponent))
      else if bool_decide (length (Architectures indexComponent) = 0) then
        Some (MissingArchError (Name indexComponent))
      else None
  end.

(** checkForRequiredMetadata validates that a given devfile has the
    necessary metadata fields *)
Definition checkForRequiredMetadata (devfileMetadata : DevfileMetadata)
    : list error :=
  let metadataErrors := [] in
  let metadataErrors :=
    if bool_decide (mdName devfileMetadata = "")
    then metadataErrors ++ [Errorf "metadata.name is not set"]
    else metadataErrors in
  let metadataErrors :=
    if bool_decide (mdDisplayName devfileMetadata = "")
    then metadataErrors ++ [Errorf "metadata.displayName is not set"]
    else metadataErrors in
  let metadataErrors :=
    if bool_decide (mdLanguage devfileMetadata = "")
    then metadataErrors ++ [Errorf "metadata.language is not set"]
    else metadataErrors in
  let metadataErrors :=
    if bool_decide (mdProjectType devfileMetadata = "")
    then metadataErrors ++ [Errorf "metadata.projectType is not set"]
    else metadataErrors in
  metadataErrors.

(** The loop of [validateStackInfo] over the versions: the state is
    [hasDefault] and the errors gathered so far. *)
Fixpoint validateVersions `{!StatPolicy} (fs : FS) (stackfolderDir : path)
    (versions : list Version) (hasDefault : bool) (errors : list error)
    : outcome (bool * list error) :=
  match versions with
  | [] => Returns (hasDefault, errors)
  | version :: rest =>
      let '(hasDefault, errors) :=
        if vDefault version then
          if negb hasDefault then (true, errors)
          else (hasDefault,
                errors ++ [Errorf "stack.yaml has multiple default versions"])
        else (hasDefault, errors) in
      match vGit version with
      | None =>
          let versionFolder := Join stackfolderDir (vVersion version) in
          match dirExists fs versionFolder with
          | Panics msg => Panics msg
          | Returns (Some err) =>
              validateVersions fs stackfolderDir rest hasDefault
                (errors ++ [Errorf ("cannot find resorce folder for version "
                                    +:+ vVersion version
                                    +:+ " defined in stack.yaml: "
                                    +:+ Error err)])
          | Returns None =>
              validateVersions fs stackfolderDir rest hasDefault errors
          end
      | Some _ => validateVersions fs stackfolderDir rest hasDefault errors
      end
  end.

Definition validateStackInfo `{!StatPolicy} (fs : FS) (stackInfo : Schema)
    (stackfolderDir : path) : outcome (list error) :=
  let errors := [] in
  let errors :=
    if bool_decide (Name stackInfo = "")
    then errors ++ [Errorf "name is not set in stack.yaml"] else errors in
  let errors :=
    if bool_decide (DisplayName stackInfo = "")
    then errors ++ [Errorf "displayName is not set stack.yaml"] else errors in
  let errors :=
    if bool_decide (Icon stackInfo = "")
    then errors ++ [Errorf "icon is not set stack.yaml"] else errors in
  let errors :=
    if bool_decide (length (Versions stackInfo) = 0)
    then errors ++ [Errorf "versions list is not set stack.yaml, or is empty"]
    else errors in
  match validateVersions fs stackfolderDir (Versions stackInfo) false errors
  with
  | Panics msg => Panics msg
  | Returns (hasDefault, errors) =>
      if negb hasDefault
      then Returns (errors
                    ++ [Errorf "stack.yaml does not contain a default version"])
      else Returns errors
  end.

(** ** Version merge engine *)

(** The opening lines of [parseStackDevfile]: allow devfile.yaml or
    .devfile.yaml, but not both. *)
Definition devfilePathOf `{!StatPolicy} (fs : FS) (devfileDirPath : path)
    : result path :=
  let devfilePath := pjoin devfileDirPath devfile in
  let devfileHiddenPath := pjoin devfileDirPath devfileHidden in
  if fileExists fs devfilePath && fileExists fs devfileHiddenPath then
    Err (Errorf ("both " +:+ pathString devfilePath +:+ " and "
                 +:+ pathString devfileHiddenPath +:+ " exist"))
  else if fileExists fs devfileHiddenPath then Ok devfileHiddenPath
  else Ok devfilePath.

(** [if indexComponent.F == "" { indexComponent.F = value }] *)
Definition setIfEmpty (get : Schema -> string)
    (set : string -> Schema -> Schema) (value : string) (s : Schema) : Schema :=
  if bool_decide (get s = "") then set value s else s.

(** set common properties if not set, then the top-level properties of a
    single version stack *)
Definition backfill (meta : Schema) (indexComponent : Schema) : Schema :=
  let indexComponent :=
    setIfEmpty ProjectType setProjectType (ProjectType meta) indexComponent in
  let indexComponent :=
    setIfEmpty Language setLanguage (Language meta) indexComponent in
  let indexComponent :=
    setIfEmpty Provider setProvider (Provider meta) indexComponent in
  let indexComponent :=
    setIfEmpty SupportUrl setSupportUrl (SupportUrl meta) indexComponent in
  let indexComponent :=
    setIfEmpty Name setName (Name meta) indexComponent in
  let indexComponent :=
    setIfEmpty DisplayName setDisplayName (DisplayName meta) indexComponent in
  let indexComponent :=
    setIfEmpty Description setDescription (Description meta) indexComponent in
  setIfEmpty Icon setIcon (Icon meta) indexComponent.

(** [for _, x := range xs { if !inArray(acc, x) { acc = append(acc, x) } }] *)
Fixpoint appendMissing (acc : list string) (xs : list string) : list string :=
  match xs with
  | [] => acc
  | x :: xs' =>
      appendMissing (if negb (inArray acc x) then acc ++ [x] else acc) xs'
  end.

Definition selfLink (stackName version : string) : string :=
  "devfile-catalog" +:+ "/" +:+ stackName +:+ ":" +:+ version.

(** The version entry as [parseStackDevfile] leaves it before the files of
    its directory are listed. *)
Definition populateVersion (stackName : string) (devfile : Devfile)
    (versionProp : Version) (versionComponent : Version) : Version :=
  let versionProp := setDefault (vDefault versionComponent) versionProp in
  let versionComponent := versionProp in
  let versionComponent :=
    if bool_decide (vLinks versionComponent = None)
    then setvLinks (Some ∅) versionComponent else versionComponent in
  let versionComponent :=
    setvLinks
      ((fun links : gmap string string =>
          <["self" := selfLink stackName (vVersion versionComponent)]> links)
         <$> vLinks versionComponent)
      versionComponent in
  let versionComponent :=
    setvSchemaVersion (dSchemaVersion devfile) versionComponent in
  setvStarterProjects
    (vStarterProjects versionComponent ++ map spName (dStarterProjects devfile))
    versionComponent.

(** The names of the entries that are not directories, in listing order. *)
Definition regularFiles (stackFiles : list FileInfo) : list string :=
  map fiName (filter (fun stackFile => negb (IsDir stackFile)) stackFiles).

Section Build.

Context `{!StatPolicy} `{!DevfileLibrary}.

(** The two pointer arguments of the source are returned updated. *)
Definition parseStackDevfile (fs : FS) (devfileDirPath : path)
    (stackName : string) (force : bool) (versionComponent : Version)
    (indexComponent : Schema) : result (Version * Schema) :=
  devfilePath <- devfilePathOf fs devfileDirPath ;;
  _ <- (if negb force then
          (* Devfile validation *)
          match ParseDevfileAndValidate fs devfilePath with
          | Err err =>
              Err (Errorf (pathString devfileDirPath
                           +:+ " devfile is not valid: " +:+ Error err))
          | Ok devfileObj =>
              match checkForRequiredMetadata devfileObj with
              | [] => Ok tt
              | metadataErrors =>
                  Err (Errorf (pathString devfileDirPath
                               +:+ " devfile is not valid: "
                               +:+ showErrors metadataErrors))
              end
          end
        else Ok tt) ;;
  bytes <- match ReadFile fs devfilePath with
           | Err err =>
               Err (Errorf ("failed to read " +:+ pathString devfilePath
                            +:+ ": " +:+ Error err))
           | Ok bytes => Ok bytes
           end ;;
  devfile <- match unmarshalDevfile bytes with
             | Err err =>
                 Err (Errorf ("failed to unmarshal " +:+ pathString devfilePath
                              +:+ " data: " +:+ Error err))
             | Ok d => Ok d
             end ;;
  versionProp <- match metaAsVersion (Meta devfile) with
                 | Err err =>
                     Err (Errorf ("failed to unmarshal "
                                  +:+ pathString devfilePath
                                  +:+ " data: " +:+ Error err))
                 | Ok v => Ok v
                 end ;;
  let indexComponent := backfill (Meta devfile) indexComponent in
  let versionComponent :=
    populateVersion stackName devfile versionProp versionComponent in
  let indexComponent :=
    setTags (appendMissing (Tags indexComponent) (vTags versionComponent))
      indexComponent in
  let indexComponent :=
    setArchitectures
      (appendMissing (Architectures indexComponent)
         (vArchitectures versionComponent))
      indexComponent in
  (* Get the files in the stack folder *)
  stackFiles <- ReadDir fs devfileDirPath ;;
  let versionComponent :=
    setvResources (vResources versionComponent ++ regularFiles stackFiles)
      versionComponent in
  Ok (versionComponent, indexComponent).

Definition parseStackInfo (fs : FS) (stackYamlPath : path) : result Schema :=
  match ReadFile fs stackYamlPath with
  | Err err =>
      Err (Errorf ("failed to read " +:+ pathString stackYamlPath +:+ ": "
                   +:+ Error err))
  | Ok bytes =>
      match unmarshalSchema bytes with
      | Err err =>
          Err (Errorf ("failed to unmarshal " +:+ pathString stackYamlPath
                       +:+ " data: " +:+ Error err))
      | Ok index => Ok index
      end
  end.

(** ** Registry walker *)

(** [for i, versionComponent := range indexComponent.Versions]: [versions]
    is what is left of the ranged slice from index [i] on. *)
Fixpoint versionsLoop (fs : FS) (stackFolderPath : path) (stackName : string)
    (force : bool) (i : nat) (versions : list Version)
    (indexComponent : Schema) : result Schema :=
  match versions with
  | [] => Ok indexComponent
  | versionComponent :: rest =>
      match vGit versionComponent with
      | None =>
          let stackVersonDirPath :=
            Join stackFolderPath (vVersion versionComponent) in
          match parseStackDevfile fs stackVersonDirPath stackName force
                  versionComponent indexComponent with
          | Err err => Err err
          | Ok (versionComponent, indexComponent) =>
              versionsLoop fs stackFolderPath stackName force (S i) rest
                (setVersions (<[i := versionComponent]> (Versions indexComponent))
                   indexComponent)
          end
      | Some _ =>
          versionsLoop fs stackFolderPath stackName force (S i) rest
            indexComponent
      end
  end.

(** The body of the loop of [parseDevfileRegistry] for one directory of
    [stacks/]. *)
Definition stackComponent (fs : FS) (stackDirPath : path)
    (stackFolderName : string) (force : bool) : result Schema :=
  let stackFolderPath := pjoin stackDirPath stackFolderName in
  let stackYamlPath := pjoin stackFolderPath stackYaml in
  indexComponent <-
    (if fileExists fs stackYamlPath then
       (* if stack.yaml exist, parse stack.yaml *)
       indexComponent <- parseStackInfo fs stackYamlPath ;;
       _ <- (if negb force then
               match validateStackInfo fs indexComponent stackFolderPath with
               | Panics msg => Err (RuntimePanic msg)
               | Returns [] => Ok tt
               | Returns stackYamlErrors =>
                   Err (Errorf (stackFolderName +:+ " stack.yaml is not valid: "
                                +:+ showErrors stackYamlErrors))
               end
             else Ok tt) ;;
       versionsLoop fs stackFolderPath stackFolderName force 0
         (Versions indexComponent) indexComponent
     else
       (* old stack repo struct, directly look for and parse devfile.yaml *)
       match parseStackDevfile fs stackFolderPath stackFolderName force
               zeroVersion zeroSchema with
       | Err err => Err err
       | Ok (versionComponent, indexComponent) =>
           let versionComponent := setDefault true versionComponent in
           Ok (setVersions (Versions indexComponent ++ [versionComponent])
                 indexComponent)
       end) ;;
  Ok (setType StackDevfileType indexComponent).

Fixpoint registryLoop (fs : FS) (stackDirPath : path) (force : bool)
    (stackDir : list FileInfo) (index : list Schema) : result (list Schema) :=
  match stackDir with
  | [] => Ok index
  | stackFolderDir :: rest =>
      if negb (IsDir stackFolderDir) then
        registryLoop fs stackDirPath force rest index
      else
        match stackComponent fs stackDirPath (fiName stackFolderDir) force with
        | Err err => Err err
        | Ok indexComponent =>
            registryLoop fs stackDirPath force rest (index ++ [indexComponent])
        end
  end.

Definition parseDevfileRegistry (fs : FS) (registryDirPath : path)
    (force : bool) : result (list Schema) :=
  let stackDirPath := pjoin registryDirPath "stacks" in
  match ReadDir fs stackDirPath with
  | Err err =>
      Err (Errorf ("failed to read stack directory " +:+ pathString stackDirPath
                   +:+ ": " +:+ Error err))
  | Ok stackDir => registryLoop fs stackDirPath force stackDir []
  end.

End Build.

(** ** Supplemental entry loader

    [fmt.Printf] is modelled by the list of the strings printed so far. *)

Section Supplemental.

Context `{!StatPolicy} `{!DevfileLibrary}.

(** The check of the devfile cached for a sample, in the body of the inner
    loop of [parseExtraDevfileEntries]: if sample, validate devfile
    associated with sample as well. *)
Definition sampleDevfileError (fs : FS) (samplesDir : path)
    (validateSamples : bool) (devfileEntry indexComponent : Schema)
    : option error :=
  if bool_decide (Type' indexComponent = SampleDevfileType)
     && validateSamples then
    let devfilePath :=
      pjoin (Join samplesDir (Name devfileEntry)) "devfile.yaml" in
    match Stat fs devfilePath with
    | Err err =>
        Some (Errorf (Name indexComponent
                      +:+ " devfile sample does not have a devfile.yaml: "
                      +:+ Error err))
    | Ok _ =>
        match ParseAndValidate fs devfilePath with
        | Some err =>
            Some (Errorf (Name devfileEntry
                          +:+ " sample devfile is not valid: " +:+ Error err))
        | None => None
        end
    end
  else None.

(** The body of the inner loop of [parseExtraDevfileEntries]. *)
Definition extraEntry (fs : FS) (samplesDir : path) (validateSamples : bool)
    (force : bool) (devfileType : DevfileType) (devfileEntry : Schema)
    (out : list string) : list string * result Schema :=
  let indexComponent := devfileEntry in
  let indexComponent := setType devfileType indexComponent in
  if negb force then
    match sampleDevfileError fs samplesDir validateSamples devfileEntry
            indexComponent with
    | Some err => (out, Err err)
    | None =>
        (* Index component validation *)
        match validateIndexComponent indexComponent devfileType with
        | Some (MissingProviderError _ as err)
        | Some (MissingSupportUrlError _ as err)
        | Some (MissingArchError _ as err) =>
            (* log to the console as FYI *)
            (out ++ [Error err], Ok indexComponent)
        | Some err =>
            (out, Err (Errorf (Name indexComponent
                               +:+ " index component is not valid: "
                               +:+ Error err)))
        | None => (out, Ok indexComponent)
        end
    end
  else (out, Ok indexComponent).

Fixpoint extraEntriesLoop (fs : FS) (samplesDir : path)
    (validateSamples : bool) (force : bool) (devfileType : DevfileType)
    (devfileEntriesWithType : list Schema) (out : list string)
    (index : list Schema) : list string * result (list Schema) :=
  match devfileEntriesWithType with
  | [] => (out, Ok index)
  | devfileEntry :: rest =>
      match extraEntry fs samplesDir validateSamples force devfileType
              devfileEntry out with
      | (out, Err err) => (out, Err err)
      | (out, Ok indexComponent) =>
          extraEntriesLoop fs samplesDir validateSamples force devfileType rest
            out (index ++ [indexComponent])
      end
  end.

Definition parseExtraDevfileEntries (fs : FS) (registryDirPath : path)
    (force : bool) (out : list string) : list string * result (list Schema) :=
  let extraDevfileEntriesPath := pjoin registryDirPath extraDevfileEntries in
  match ReadFile fs extraDevfileEntriesPath with
  | Err err =>
      (out, Err (Errorf ("failed to read " +:+ pathString extraDevfileEntriesPath
                         +:+ ": " +:+ Error err)))
  | Ok bytes =>
      (* Only validate samples if they have been cached *)
      let samplesDir := pjoin registryDirPath "samples" in
      let validateSamples :=
        match Stat fs samplesDir with
        | Err err => negb (IsNotExist err)
        | Ok _ => true
        end in
      match unmarshalExtra bytes with
      | Err err =>
          (out, Err (Errorf ("failed to unmarshal "
                             +:+ pathString extraDevfileEntriesPath
                             +:+ " data: " +:+ Error err)))
      | Ok devfileEntries =>
          match extraEntriesLoop fs samplesDir validateSamples force
                  SampleDevfileType (Samples devfileEntries) out [] with
          | (out, Err err) => (out, Err err)
          | (out, Ok index) =>
              extraEntriesLoop fs samplesDir validateSamples force
                StackDevfileType (Stacks devfileEntries) out index
          end
      end
  end.

(** GenerateIndexStruct parses registry then generates index struct
    according to the schema.  Go returns the index next to the error. *)
Definition GenerateIndexStruct (fs : FS) (registryDirPath : path)
    (force : bool) (out : list string)
    : list string * (list Schema * option error) :=
  match parseDevfileRegistry fs registryDirPath force with
  | Err err => (out, ([], Some err))
  | Ok index =>
      let extraDevfileEntriesPath := pjoin registryDirPath extraDevfileEntries in
      if fileExists fs extraDevfileEntriesPath then
        match parseExtraDevfileEntries fs registryDirPath force out with
        | (out, Err err) => (out, (index, Some err))
        | (out, Ok indexFromExtraDevfileEntries) =>
            (out, (index ++ indexFromExtraDevfileEntries, None))
        end
      else (out, (index, None))
  end.

End Supplemental.

(** ** Remote stack fetcher

    The calls [downloadRemoteStack] makes outside the library are recorded
    in a trace, which is the state of the world; what each call returns is
    given by the interface [Remote], as a function of the trace so far. *)

Record CloneOptions : Type := mkCloneOptions {
  URL : string;
  coRemoteName : string;
  ReferenceName : string;
  SingleBranch : bool;
  Depth : nat }.

Inductive Event : Type :=
  | EvPrintf (msg : string)
  | EvTempDir
  | EvPlainClone (dst : path) (isBare : bool) (o : CloneOptions)
  | EvRemoveAll (p : path)
  | EvGitSubDir (srcPath destinationPath : path) (subDir : string).

Abbreviation World := (list Event).

Class Remote : Type := {
  cloneOutcome : World -> path -> CloneOptions -> option error;
  tempDirOutcome : World -> result path;
  removeOutcome : World -> path -> option error;
  subDirOutcome : World -> path -> path -> string -> option error }.

(** go-git's [plumbing.IsHash]: forty hexadecimal digits. *)
Definition isHexDigit (c : Ascii.ascii) : bool :=
  let n := Ascii.nat_of_ascii c in
  (Nat.leb 48 n && Nat.leb n 57) || (Nat.leb 97 n && Nat.leb n 102)
  || (Nat.leb 65 n && Nat.leb n 70).

Definition IsHash (s : string) : bool :=
  bool_decide (String.length s = 40)
  && forallb isHexDigit (String.list_ascii_of_string s).

Definition NewBranchReferenceName (name : string) : string :=
  "refs/heads/" +:+ name.
Definition NewTagReferenceName (name : string) : string :=
  "refs/tags/" +:+ name.

Definition setReferenceName (x : string) (o : CloneOptions) : CloneOptions :=
  mkCloneOptions (URL o) (coRemoteName o) x (SingleBranch o) (Depth o).

Section Fetch.

Context `{!Remote}.

Definition Printf (msg : string) (w : World) : World := w ++ [EvPrintf msg].

Definition TempDir (w : World) : World * result path :=
  (w ++ [EvTempDir], tempDirOutcome w).

Definition PlainClone (dst : path) (isBare : bool) (o : CloneOptions)
    (w : World) : World * option error :=
  (w ++ [EvPlainClone dst isBare o], cloneOutcome w dst o).

Definition osRemoveAll (p : path) (w : World) : World * option error :=
  (w ++ [EvRemoveAll p], removeOutcome w p).

Definition GitSubDir (srcPath destinationPath : path) (subDir : string)
    (w : World) : World * option error :=
  (w ++ [EvGitSubDir srcPath destinationPath subDir],
   subDirOutcome w srcPath destinationPath subDir).

(** What follows a successful clone. *)
Definition afterClone (git : Git) (dst originalPath : path) (w : World)
    : World * option error :=
  (* we don't want to download project be a git repo *)
  let '(w, err) := osRemoveAll (pjoin dst ".git") w in
  let w :=
    match err with
    | Some _ =>
        Printf "Unable to delete .git from cloned devfile repository" w
    | None => w
    end in
  if negb (bool_decide (SubDir git = "")) then
    let '(w, err) := GitSubDir dst originalPath (SubDir git) w in
    match err with
    | Some err => (w, Some err)
    | None => (w, None)
    end
  else (w, None).

(** downloadRemoteStack downloads the stack version outside of the registry
    repo *)
Definition downloadRemoteStack (git : Git) (dst : path) (verbose : bool)
    (w : World) : World * option error :=
  (* convert revision to referenceName type, ref name could be a branch or
     tag; if revision is not specified it would be the default branch *)
  let revision := Revision git in
  let refName := Revision git in
  let '(w, revision) :=
    if IsHash revision then
      (Printf "Specifying commit in 'revision' is not yet supported." w, "")
    else (w, revision) in
  let refName :=
    if negb (bool_decide (revision = ""))
    then NewBranchReferenceName revision (* consider a branch name first *)
    else refName in
  let cloneOptions := mkCloneOptions (Url git) (RemoteName git) refName true 1 in
  let originalPath : path := [] in
  let '(w, tmp) :=
    if negb (bool_decide (SubDir git = "")) then
      let '(w, r) := TempDir w in
      match r with
      | Err err => (w, Err err)
      | Ok tmp => (w, Ok (tmp, dst))
      end
    else (w, Ok (dst, originalPath)) in
  match tmp with
  | Err err => (w, Some err)
  | Ok (dst, originalPath) =>
      let '(w, err) := PlainClone dst false cloneOptions w in
      match err with
      | Some err =>
          (* only a missing reference is tried again, as a tag, and only if a
             revision is specified *)
          if negb (match err with NoMatchingRefSpecError => true | _ => false end)
             || bool_decide (revision = "")
          then (w, Some err)
          else
            let cloneOptions :=
              setReferenceName (NewTagReferenceName revision) cloneOptions in
            (* remove if any .git folder downloaded in above try *)
            let '(w, _) := osRemoveAll (pjoin dst ".git") w in
            let '(w, err) := PlainClone dst false cloneOptions w in
            match err with
            | Some err => (w, Some err)
            | None => afterClone git dst originalPath w
            end
      | None => afterClone git dst originalPath w
      end
  end.

End Fetch.

(** The options of the clone attempts a run made, in order. *)
Definition cloneAttempts (w : World) : list CloneOptions :=
  omap (fun ev => match ev with EvPlainClone _ _ o => Some o | _ => None end) w.

(** ** Vocabulary of the properties *)


Definition isDirectory (fs : FS) (p : path) : bool :=
  match fsLookup fs p with Some Dir => true | _ => false end.

Definition defaultCount (versions : list Version) : nat :=
  length (filter (fun v => vDefault v = true) versions).

Definition versionDirsOk (fs : FS) (stackfolderDir : path)
    (versions : list Version) : bool :=
  forallb (fun v => match vGit v with
                    | None => isDirectory fs (Join stackfolderDir (vVersion v))
                    | Some _ => true
                    end) versions.

(** [os.Stat] fails at the path with an error other than not-exist. *)
Definition statFaulty `{!StatPolicy} (fs : FS) (p : path) : bool :=
  match statFault p with
  | Some _ => true
  | None => underFile fs p
  end.

(** [os.Stat] can look for the folder of every version without a remote
    source. *)
Definition versionDirsReachable `{!StatPolicy} (fs : FS)
    (stackfolderDir : path) (versions : list Version) : bool :=
  forallb (fun v => match vGit v with
                    | None => negb (statFaulty fs (Join stackfolderDir (vVersion v)))
                    | Some _ => true
                    end) versions.

(** The catalog entry and the version entry [parseStackDevfile] computes
    from the devfile [d], its metadata re-read as the version [vp], and the
    listing [files] of the version directory. *)
Definition mergedEntry (d : Devfile) (vp : Version) (stackName : string)
    (versionComponent : Version) (indexComponent : Schema) : Schema :=
  let indexComponent := backfill (Meta d) indexComponent in
  let versionComponent := populateVersion stackName d vp versionComponent in
  let indexComponent :=
    setTags (appendMissing (Tags indexComponent) (vTags versionComponent))
      indexComponent in
  setArchitectures
    (appendMissing (Architectures indexComponent)
       (vArchitectures versionComponent))
    indexComponent.

Definition mergedVersion (d : Devfile) (vp : Version) (stackName : string)
    (files : list FileInfo) (versionComponent : Version) : Version :=
  let versionComponent := populateVersion stackName d vp versionComponent in
  setvResources (vResources versionComponent ++ regularFiles files)
    versionComponent.

(** [orElse current value] is what [if current == "" { current = value }]
    leaves in [current]. *)
Definition orElse (current value : string) : string :=
  if bool_decide (current = "") then value else current.

Fixpoint firstNonEmpty (values : list string) : string :=
  match values with
  | [] => ""
  | x :: rest => if bool_decide (x = "") then firstNonEmpty rest else x
  end.

(** The entry-level scalar fields the merge step backfills. *)
Inductive ScalarField : Type :=
  | FProjectType | FLanguage | FProvider | FSupportUrl
  | FName | FDisplayName | FDescription | FIcon.

Definition scalar (f : ScalarField) (s : Schema) : string :=
  match f with
  | FProjectType => ProjectType s
  | FLanguage => Language s
  | FProvider => Provider s
  | FSupportUrl => SupportUrl s
  | FName => Name s
  | FDisplayName => DisplayName s
  | FDescription => Description s
  | FIcon => Icon s
  end.

(** The first occurrences of the elements of a list, in order. *)
Fixpoint firstOccurrences (xs : list string) : list string :=
  match xs with
  | [] => []
  | x :: rest => x :: filter (fun y => y ≠ x) (firstOccurrences rest)
  end.

(** What the walker reads for one version it processes: the devfile of the
    version directory, its metadata re-read as a version, and the listing of
    the directory. *)
Record VersionInput : Type := mkVersionInput {
  viDevfile : Devfile;
  viProp : Version;
  viFiles : list FileInfo }.

Definition outVersion (stackName : string) (v0 : Version)
    (inp : option VersionInput) : Version :=
  match inp with
  | None => v0
  | Some inp =>
      mergedVersion (viDevfile inp) (viProp inp) stackName (viFiles inp) v0
  end.

Definition mergeStep (stackName : string) (indexComponent : Schema)
    (x : Version * option VersionInput) : Schema :=
  match x.2 with
  | None => indexComponent
  | Some inp =>
      mergedEntry (viDevfile inp) (viProp inp) stackName x.1 indexComponent
  end.

(** The devfiles of the processed versions, in processing order. *)
Definition processedDevfiles (inps : list (option VersionInput))
    : list Devfile :=
  omap (fun inp => viDevfile <$> inp) inps.

(** The legacy layout read as a manifest: no entry-level field, and one
    version, marked default, whose identifier is empty. *)
Definition legacyManifest : Schema :=
  setVersions [setDefault true zeroVersion] zeroSchema.

(** [manifestOf fs folder force e0]: [e0] is the stack.yaml of the folder,
    checked unless forced, or the legacy manifest when there is none. *)
Definition manifestOf `{!StatPolicy} (fs : FS) (folder : path) (force : bool)
    (e0 : Schema) : Prop :=
  if fileExists fs (pjoin folder stackYaml) then
    parseStackInfo fs (pjoin folder stackYaml) = Ok e0
    ∧ (force = false → validateStackInfo fs e0 folder = Returns [])
  else e0 = legacyManifest.

Definition processedProps (inps : list (option VersionInput)) : list Version :=
  omap (fun inp => viProp <$> inp) inps.

Definition selfOf (v : Version) : option string :=
  vLinks v ≫= (fun links : gmap string string => links !! "self").

Section Reads.

Context `{faults : !StatPolicy} `{lib : !DevfileLibrary}.

(** [readsVersion fs folder force v0 inp]: a version with a remote source
    is not read; for a local one, [inp] is what its directory holds. *)
Definition readsVersion (fs : FS) (folder : path) (force : bool)
    (v0 : Version) (inp : option VersionInput) : Prop :=
  match vGit v0, inp with
  | Some _, None => True
  | None, Some inp =>
      let dir := Join folder (vVersion v0) in
      ∃ p, devfilePathOf fs dir = Ok p
           ∧ (force = false →
              ∃ md, ParseDevfileAndValidate fs p = Ok md
                    ∧ checkForRequiredMetadata md = [])
           ∧ ReadFile fs p = Ok (DevfileYaml (viDevfile inp))
           ∧ metaAsVersion (Meta (viDevfile inp)) = Ok (viProp inp)
           ∧ ReadDir fs dir = Ok (viFiles inp)
  | _, _ => False
  end.

End Reads.

(** The errors the supplemental loader only prints. *)
Definition softViolation (err : error) : bool :=
  match err with
  | MissingProviderError _ | MissingSupportUrlError _ | MissingArchError _ =>
      true
  | _ => false
  end.

Definition hardViolation (c : Schema) (t : DevfileType) : bool :=
  match validateIndexComponent c t with
  | Some err => negb (softViolation err)
  | None => false
  end.

Definition softMessage (c : Schema) (t : DevfileType) : list string :=
  match validateIndexComponent c t with
  | Some err => if softViolation err then [Error err] else []
  | None => []
  end.

Definition isNone {A} (o : option A) : bool :=
  match o with None => true | Some _ => false end.

Section Passes.

Context `{faults : !StatPolicy} `{lib : !DevfileLibrary}.

(** One entry goes through when its sample devfile, if one is looked for,
    is valid and the entry has no hard violation. *)
Definition entryPasses (fs : FS) (samplesDir : path) (validateSamples : bool)
    (t : DevfileType) (devfileEntry : Schema) : bool :=
  isNone (sampleDevfileError fs samplesDir validateSamples devfileEntry
            (setType t devfileEntry))
  && negb (hardViolation (setType t devfileEntry) t).

End Passes.

(** ** Sample inputs *)

(** Modelled from the spec: a devfile library that accepts a file exactly
    when it holds a devfile and reports the metadata the file holds, and a
    yaml codec under which a version takes from the metadata the fields of
    the same name (version, git, description, tags, architectures, icon,
    links, resources, starterProjects). *)
Definition referenceLibrary : DevfileLibrary := {|
  ParseDevfileAndValidate fs p :=
    match ReadFile fs p with
    | Ok (DevfileYaml d) =>
        Ok (mkMetadata (Name (Meta d)) (DisplayName (Meta d))
              (Language (Meta d)) (ProjectType (Meta d)))
    | Ok _ => Err (Errorf "schemaVersion not present in devfile")
    | Err err => Err err
    end;
  ParseAndValidate fs p :=
    match ReadFile fs p with
    | Ok (DevfileYaml d) => None
    | Ok _ => Some (Errorf "schemaVersion not present in devfile")
    | Err err => Some err
    end;
  metaAsVersion meta :=
    Ok (mkVersion (Version' meta) "" false (Git' meta) (Description meta)
          (Tags meta) (Architectures meta) (Icon meta) (Links meta)
          (default [] (Resources meta)) (StarterProjects meta)) |}.

(** A version as a manifest declares it. *)
Definition declared (version : string) (isDefault : bool) : Version :=
  mkVersion version "" isDefault None "" [] [] "" None [] [].

Definition nodejsManifest : Schema :=
  mkSchema "nodejs" "" "Node.js Runtime" "" "" ["Community"; "Community"] []
    "node.svg" "" "" None None [] None "" ""
    [declared "1.0.0" true; declared "2.0.0" false].

Definition nodejsDevfile1 : Devfile :=
  mkDevfile
    (mkSchema "nodejs" "1.0.0" "Node.js 1.0" "" "" ["Node.js"; "Express"]
       ["amd64"] "" "Node.js" "javascript" None None [] None "Red Hat"
       "https://example.com/support" [])
    [mkStarterProject "nodejs-starter"] "2.1.0".

Definition nodejsDevfile2 : Devfile :=
  mkDevfile
    (mkSchema "nodejs" "2.0.0" "Node.js 2.0" "" "" ["Node.js"]
       ["amd64"; "arm64"] "" "Node.js" "javascript" None None [] None
       "Red Hat" "https://example.com/support" [])
    [mkStarterProject "nodejs-starter"] "2.2.0".

(** A legacy stack: its devfile declares no version. *)
Definition goDevfile : Devfile :=
  mkDevfile
    (mkSchema "go" "" "Go Runtime" "" "" ["Go"] ["amd64"] "" "Go" "Go" None
       None [] None "" "" [])
    [] "2.1.0".

Definition sampleExtras : ExtraDevfileEntries :=
  mkExtra
    [mkSchema "nodejs-basic" "" "Basic Node.js" "" "" [] ["amd64"] "" "" ""
       None None []
       (Some (mkGit {[ "origin" := "https://example.com/nodejs-basic.git" ]}
                "" "" "" ""))
       "" "https://example.com/support" []]
    [].

Definition sampleRegistry : FS :=
  [ (["registry"], Dir);
    (["registry"; "stacks"], Dir);
    (["registry"; "stacks"; "nodejs"], Dir);
    (["registry"; "stacks"; "nodejs"; "stack.yaml"],
     File (StackYaml nodejsManifest));
    (["registry"; "stacks"; "nodejs"; "1.0.0"], Dir);
    (["registry"; "stacks"; "nodejs"; "1.0.0"; "devfile.yaml"],
     File (DevfileYaml nodejsDevfile1));
    (["registry"; "stacks"; "nodejs"; "2.0.0"], Dir);
    (["registry"; "stacks"; "nodejs"; "2.0.0"; "devfile.yaml"],
     File (DevfileYaml nodejsDevfile2));
    (["registry"; "stacks"; "go"], Dir);
    (["registry"; "stacks"; "go"; "devfile.yaml"],
     File (DevfileYaml goDevfile));
    (["registry"; "stacks"; "README.md"], File OtherData);
    (["registry"; "extraDevfileEntries.yaml"], File (ExtraYaml sampleExtras)) ].

(** A manifest with no default version, and a legacy stack that holds both
    devfile.yaml and .devfile.yaml next to one that holds the hidden file
    only. *)
Definition quarkusManifest : Schema :=
  mkSchema "quarkus" "" "Quarkus" "" "" [] [] "quarkus.svg" "" "" None None []
    None "" "" [declared "1.0.0" false].

Definition brokenRegistry : FS :=
  [ (["registry"], Dir);
    (["registry"; "stacks"], Dir);
    (["registry"; "stacks"; "quarkus"], Dir);
    (["registry"; "stacks"; "quarkus"; "stack.yaml"],
     File (StackYaml quarkusManifest));
    (["registry"; "stacks"; "quarkus"; "1.0.0"], Dir);
    (["registry"; "stacks"; "quarkus"; "1.0.0"; "devfile.yaml"],
     File (DevfileYaml goDevfile)) ].

Definition ambiguousRegistry : FS :=
  [ (["registry"], Dir);
    (["registry"; "stacks"], Dir);
    (["registry"; "stacks"; "rust"], Dir);
    (["registry"; "stacks"; "rust"; ".devfile.yaml"],
     File (DevfileYaml goDevfile));
    (["registry"; "stacks"; "python"], Dir);
    (["registry"; "stacks"; "python"; "devfile.yaml"],
     File (DevfileYaml goDevfile));
    (["registry"; "stacks"; "python"; ".devfile.yaml"],
     File (DevfileYaml goDevfile)) ].

(** The sample registry with its samples cached: the devfile of the sample
    in place, missing, or holding something else than a devfile. *)
Definition cachedRegistry : FS :=
  sampleRegistry
  ++ [ (["registry"; "samples"], Dir);
       (["registry"; "samples"; "nodejs-basic"], Dir);
       (["registry"; "samples"; "nodejs-basic"; "devfile.yaml"],
        File (DevfileYaml nodejsDevfile1)) ].

Definition staleRegistry : FS :=
  sampleRegistry
  ++ [ (["registry"; "samples"], Dir);
       (["registry"; "samples"; "nodejs-basic"], Dir) ].

Definition invalidCacheRegistry : FS :=
  sampleRegistry
  ++ [ (["registry"; "samples"], Dir);
       (["registry"; "samples"; "nodejs-basic"], Dir);
       (["registry"; "samples"; "nodejs-basic"; "devfile.yaml"],
        File OtherData) ].

(** A supplemental stack with a provider, a supportUrl and an architecture,
    and no links. *)
Definition mavenEntry : Schema :=
  mkSchema "java-maven" "" "Maven Java" "" "" [] ["amd64"] "" "" "" None None
    [] None "Red Hat" "https://example.com/support" [].

Definition strictRegistry : FS :=
  [ (["registry"], Dir);
    (["registry"; "stacks"], Dir);
    (["registry"; "extraDevfileEntries.yaml"],
     File (ExtraYaml (mkExtra [] [mavenEntry]))) ].

Definition stacksDir : path := ["registry"; "stacks"].

(** A manifest whose single version is named by a path that runs through
    the manifest file itself. *)
Definition strayManifest : Schema :=
  mkSchema "stray" "" "Stray" "" "" [] [] "stray.svg" "" "" None None [] None
    "" "" [declared "stack.yaml/x" true].

Definition strayRegistry : FS :=
  [ (["registry"], Dir);
    (["registry"; "stacks"], Dir);
    (["registry"; "stacks"; "stray"], Dir);
    (["registry"; "stacks"; "stray"; "stack.yaml"],
     File (StackYaml strayManifest)) ].

(** A remote with a default branch, a branch main and a tag v1.0.0: an
    empty reference name stands for the default branch, any other name that
    is not a reference of the remote is not found. *)
Definition knownReferences : list string :=
  [""; "refs/heads/main"; "refs/tags/v1.0.0"].

Definition sampleRemote : Remote := {|
  cloneOutcome w dst o :=
    if bool_decide (ReferenceName o ∈ knownReferences) then None
    else Some NoMatchingRefSpecError;
  tempDirOutcome w := Ok ["tmp"; "clone"];
  removeOutcome w p := None;
  subDirOutcome w srcPath destinationPath subDir := None |}.

Definition commitHash : string := "0123456789abcdef0123456789abcdef01234567".



(** A file system on which [os.Stat] has no fault of its own. *)
Definition noFaults : StatPolicy := fun _ => None.



(** * Properties *)

(** ** The file system *)

Lemma hasPrefix_prefix (p q : path) : hasPrefix p q = true ↔ p `prefix_of` q.
Proof.
  revert q. induction p as [|a p IH]; intros q; simpl.
  - split; [intros _; apply prefix_nil | done].
  - destruct q as [|b q].
    + split; [done | intros [k Hk]; discriminate].
    + rewrite andb_true_iff, bool_decide_eq_true, IH. split.
      * intros [-> Hp]. by apply prefix_cons.
      * intros [k Hk]. simplify_eq/=. split; [done | by exists k].
Qed.

Lemma hasPrefix_app (p k : path) : hasPrefix p (p ++ k) = true.
Proof. apply hasPrefix_prefix. by exists k. Qed.

Lemma hasPrefix_trans (p q r : path) :
  hasPrefix p q = true → hasPrefix q r = true → hasPrefix p r = true.
Proof. rewrite !hasPrefix_prefix. by intros ? ?; etrans. Qed.

Lemma childName_Some (dir q : path) (n : string) :
  childName dir q = Some n ↔ q = dir ++ [n].
Proof.
  revert q. induction dir as [|a dir IH]; intros q; simpl.
  - destruct q as [|b [|c q]]; split; intros; simplify_eq/=; done.
  - destruct q as [|b q]; [split; intros; simplify_eq/= |].
    case_bool_decide as Hab.
    + subst. rewrite IH. split; intros; simplify_eq/=; done.
    + split; intros; simplify_eq/=.
Qed.

Lemma fsLookup_Some_elem (fs : FS) (p : path) (n : node) :
  fsLookup fs p = Some n → (p, n) ∈ fs.
Proof.
  induction fs as [|[q m] fs IH]; simpl; [done |].
  case_bool_decide; intros; simplify_eq/=; [left | right; auto].
Qed.


Lemma entries_child (fs : FS) (dir : path) (n : string) (x : node) :
  fsLookup fs (dir ++ [n]) = Some x →
  mkFileInfo n (isDirNode x) ∈ entries fs dir.
Proof.
  intros H%fsLookup_Some_elem. unfold entries.
  apply list_elem_of_omap. exists (dir ++ [n], x). split; [done |].
  simpl. by rewrite (proj2 (childName_Some dir (dir ++ [n]) n) eq_refl).
Qed.


Section CleanupProperties.

Context `{!RemovePolicy}.








End CleanupProperties.


(** ** Results and the walker's loops *)

Section StatProperties.

Context `{faults : !StatPolicy}.

Lemma Stat_reachable (fs : FS) (p : path) :
  statFaulty fs p = false →
  Stat fs p = match fsLookup fs p with
              | Some n => Ok n
              | None => Err (PathError "stat" (pathString p))
              end.
Proof.
  unfold Stat, statFaulty. destruct (statFault p); [done |]. by intros ->.
Qed.

Lemma Stat_faulty (fs : FS) (p : path) :
  statFaulty fs p = true →
  ∃ reason, Stat fs p = Err (OtherPathError "stat" (pathString p) reason).
Proof.
  unfold Stat, statFaulty. destruct (statFault p) as [reason|].
  - intros _. by exists reason.
  - intros ->. by eexists.
Qed.

Lemma fileExists_lookup (fs : FS) (p : path) (n : node) :
  fsLookup fs p = Some n → fileExists fs p = true.
Proof.
  intros Hp. unfold fileExists.
  destruct (statFaulty fs p) eqn:Hf.
  - by destruct (Stat_faulty fs p Hf) as (reason & ->).
  - by rewrite Stat_reachable, Hp.
Qed.

Lemma fileExists_false (fs : FS) (p : path) :
  fileExists fs p = false ↔ statFaulty fs p = false ∧ fsLookup fs p = None.
Proof.
  unfold fileExists.
  destruct (statFaulty fs p) eqn:Hf.
  - destruct (Stat_faulty fs p Hf) as (reason & ->). by split; [| intros []].
  - rewrite Stat_reachable by done.
    destruct (fsLookup fs p); cbn; by split; [| intros []].
Qed.

Lemma dirExists_faulty (fs : FS) (p : path) :
  statFaulty fs p = true → dirExists fs p = Panics nilDereference.
Proof.
  intros Hp. unfold dirExists. by destruct (Stat_faulty fs p Hp) as (? & ->).
Qed.

Lemma dirExists_reachable (fs : FS) (p : path) :
  statFaulty fs p = false →
  ∃ err, dirExists fs p = Returns err
         ∧ (err = None ↔ isDirectory fs p = true).
Proof.
  intros Hp. unfold dirExists, isDirectory. rewrite Stat_reachable by done.
  destruct (fsLookup fs p) as [[|d]|]; cbn; eexists; (split; [reflexivity |]);
    split; done.
Qed.

Lemma dirExists_None (fs : FS) (p : path) :
  dirExists fs p = Returns None ↔
  statFaulty fs p = false ∧ isDirectory fs p = true.
Proof.
  destruct (statFaulty fs p) eqn:Hp.
  - rewrite dirExists_faulty by done. split; [done | by intros [? _]].
  - destruct (dirExists_reachable fs p Hp) as (err & -> & Herr).
    rewrite <- Herr. split; [by intros [= ->] | by intros [_ ->]].
Qed.

Lemma snoc_not_nil {A} (l : list A) (x : A) : l ++ [x] ≠ [].
Proof. by destruct l. Qed.

Lemma snoc_nil_iff {A} (l : list A) (x : A) (P : Prop) : l ++ [x] = [] ↔ False ∧ P.
Proof. split; [by intros ?%snoc_not_nil | by intros []]. Qed.

(** One turn of the loop of [validateStackInfo], as a state update, at a
    version whose folder [os.Stat] can look for. *)
Lemma validateVersions_cons (fs : FS) (dir : path) (v : Version)
    (rest : list Version) (hasDefault : bool) (errors : list error) :
  match vGit v with
  | None => statFaulty fs (Join dir (vVersion v)) = false
  | Some _ => True
  end →
  ∃ extra,
    validateVersions fs dir (v :: rest) hasDefault errors
    = validateVersions fs dir rest (hasDefault || vDefault v) (errors ++ extra)
    ∧ (extra = [] ↔
       (vDefault v && hasDefault = false)
       ∧ match vGit v with
         | None => isDirectory fs (Join dir (vVersion v))
         | Some _ => true
         end = true).
Proof.
  intros Hreach. cbn [validateVersions].
  set (e1 := if vDefault v && hasDefault
             then [Errorf "stack.yaml has multiple default versions"]
             else []).
  assert (Hstate :
    (if vDefault v
     then if negb hasDefault then (true, errors)
          else (hasDefault,
                errors ++ [Errorf "stack.yaml has multiple default versions"])
     else (hasDefault, errors))
    = (hasDefault || vDefault v, errors ++ e1)).
  { unfold e1. destruct (vDefault v), hasDefault; cbn; by rewrite ?app_nil_r. }
  rewrite Hstate. clear Hstate.
  assert (He1 : e1 = [] ↔ vDefault v && hasDefault = false).
  { unfold e1. by destruct (vDefault v), hasDefault. }
  destruct (vGit v) as [g|].
  - exists e1. split; [done |]. rewrite He1. tauto.
  - destruct (dirExists_reachable fs _ Hreach) as (err & -> & Herr).
    destruct err as [err|].
    + eexists. rewrite <- app_assoc. split; [reflexivity |].
      split; [by intros ?%snoc_not_nil |].
      intros [_ Hd]. apply Herr in Hd. discriminate.
    + exists e1. split; [done |]. rewrite He1, <- Herr. tauto.
Qed.

Lemma validateVersions_panics (fs : FS) (dir : path) (versions : list Version)
    (hasDefault : bool) (errors : list error) :
  versionDirsReachable fs dir versions = false →
  validateVersions fs dir versions hasDefault errors = Panics nilDereference.
Proof.
  revert hasDefault errors.
  induction versions as [|v rest IH]; intros hasDefault errors; [done |].
  change (versionDirsReachable fs dir (v :: rest))
    with (match vGit v with
          | None => negb (statFaulty fs (Join dir (vVersion v)))
          | Some _ => true
          end && versionDirsReachable fs dir rest).
  destruct (vGit v) as [g|] eqn:Hg.
  - cbn [andb]. intros Hrest.
    destruct (validateVersions_cons fs dir v rest hasDefault errors)
      as (extra & -> & _); [by rewrite Hg |]. by apply IH.
  - destruct (statFaulty fs (Join dir (vVersion v))) eqn:Hu; cbn [negb andb].
    + intros _. cbn [validateVersions]. rewrite Hg.
      rewrite dirExists_faulty by done.
      by destruct (vDefault v), hasDefault.
    + intros Hrest.
      destruct (validateVersions_cons fs dir v rest hasDefault errors)
        as (extra & -> & _); [by rewrite Hg |]. by apply IH.
Qed.

Lemma validateVersions_spec (fs : FS) (dir : path) (versions : list Version)
    (hasDefault : bool) (errors : list error) :
  versionDirsReachable fs dir versions = true →
  ∃ errors',
    validateVersions fs dir versions hasDefault errors
    = Returns (hasDefault || bool_decide (0 < defaultCount versions)%nat,
               errors')
    ∧ (errors' = [] ↔
       errors = []
       ∧ (defaultCount versions + (if hasDefault then 1 else 0) ≤ 1)%nat
       ∧ versionDirsOk fs dir versions = true).
Proof.
  revert hasDefault errors.
  induction versions as [|v rest IH]; intros hasDefault errors.
  - intros _. exists errors. unfold defaultCount; simpl.
    split; [by destruct hasDefault |].
    destruct hasDefault; intuition lia.
  - change (versionDirsReachable fs dir (v :: rest))
      with (match vGit v with
            | None => negb (statFaulty fs (Join dir (vVersion v)))
            | Some _ => true
            end && versionDirsReachable fs dir rest).
    intros [Hv Hrest]%andb_true_iff.
    destruct (validateVersions_cons fs dir v rest hasDefault errors)
      as (extra & -> & Hextra).
    { destruct (vGit v); [done | by apply negb_true_iff]. }
    destruct (IH (hasDefault || vDefault v) (errors ++ extra) Hrest)
      as (errors' & -> & Herrs).
    exists errors'.
    assert (Hcount : defaultCount (v :: rest)
                     = ((if vDefault v then 1 else 0) + defaultCount rest)%nat).
    { unfold defaultCount. rewrite filter_cons.
      destruct (vDefault v); by case_decide. }
    assert (Hdirs : versionDirsOk fs dir (v :: rest)
                    = match vGit v with
                      | None => isDirectory fs (Join dir (vVersion v))
                      | Some _ => true
                      end && versionDirsOk fs dir rest) by done.
    rewrite Hcount, Hdirs, andb_true_iff. clear Hcount Hdirs. split.
    + f_equal. f_equal.
      destruct hasDefault, (vDefault v); simpl; try done;
        repeat case_bool_decide; try done; lia.
    + rewrite Herrs, app_nil, Hextra.
      destruct hasDefault, (vDefault v); simpl; intuition (try done; lia).
Qed.

(** What [validateStackInfo] returns when [os.Stat] can look for every
    version folder: errors, and none exactly on a well-formed manifest. *)
Lemma validateStackInfo_returns (fs : FS) (stackInfo : Schema) (dir : path) :
  versionDirsReachable fs dir (Versions stackInfo) = true →
  ∃ errors,
    validateStackInfo fs stackInfo dir = Returns errors
    ∧ (errors = [] ↔
       Name stackInfo ≠ "" ∧ DisplayName stackInfo ≠ "" ∧ Icon stackInfo ≠ ""
       ∧ Versions stackInfo ≠ [] ∧ defaultCount (Versions stackInfo) = 1%nat
       ∧ versionDirsOk fs dir (Versions stackInfo) = true).
Proof.
  intros Hreach. unfold validateStackInfo.
  match goal with
  | |- context [validateVersions fs dir ?vs false ?e] =>
      destruct (validateVersions_spec fs dir vs false e Hreach)
        as (errs & -> & Herrs)
  end.
  assert (Hlen : length (Versions stackInfo) = 0%nat ↔ Versions stackInfo = [])
    by (by destruct (Versions stackInfo)).
  cbn [orb].
  destruct (bool_decide (0 < defaultCount (Versions stackInfo))%nat) eqn:Hn;
    cbn [negb].
  - apply bool_decide_eq_true in Hn. exists errs. split; [done |].
    rewrite Herrs, Nat.add_0_r.
    repeat case_bool_decide; simpl;
      (split;
       [ intros (? & ? & ?); try discriminate;
         repeat split; try done; try lia; by rewrite <- Hlen
       | intros (? & ? & ? & ? & ? & ?); try done;
         repeat split; try done; try lia; by rewrite <- Hlen in * ]).
  - apply bool_decide_eq_false in Hn. eexists. split; [reflexivity |].
    split; [by intros ?%snoc_not_nil | intros (? & ? & ? & ? & ? & ?); lia].
Qed.

Lemma validateStackInfo_panics (fs : FS) (stackInfo : Schema) (dir : path) :
  versionDirsReachable fs dir (Versions stackInfo) = false →
  validateStackInfo fs stackInfo dir = Panics nilDereference.
Proof.
  intros Hreach. unfold validateStackInfo.
  by rewrite validateVersions_panics.
Qed.

Lemma validateStackInfo_nil (fs : FS) (stackInfo : Schema) (dir : path) :
  validateStackInfo fs stackInfo dir = Returns [] ↔
  Name stackInfo ≠ "" ∧ DisplayName stackInfo ≠ "" ∧ Icon stackInfo ≠ ""
  ∧ Versions stackInfo ≠ [] ∧ defaultCount (Versions stackInfo) = 1%nat
  ∧ versionDirsOk fs dir (Versions stackInfo) = true
  ∧ versionDirsReachable fs dir (Versions stackInfo) = true.
Proof.
  destruct (versionDirsReachable fs dir (Versions stackInfo)) eqn:Hreach.
  - destruct (validateStackInfo_returns fs stackInfo dir Hreach)
      as (errors & -> & Herrors).
    split.
    + intros [= ->]. destruct (proj1 Herrors eq_refl) as (? & ? & ? & ? & ? & ?).
      done.
    + intros (H1 & H2 & H3 & H4 & H5 & H6 & _).
      f_equal. apply Herrors. done.
  - rewrite validateStackInfo_panics by done.
    split; [done | intros (_ & _ & _ & _ & _ & _ & ?); done].
Qed.

Lemma versionDirsOk_false (fs : FS) (dir : path) (versions : list Version) :
  versionDirsOk fs dir versions = false ↔
  ∃ v, v ∈ versions ∧ vGit v = None
       ∧ isDirectory fs (Join dir (vVersion v)) = false.
Proof.
  induction versions as [|v rest IH].
  - split; [done | by intros (v & ?%not_elem_of_nil & _)].
  - change (versionDirsOk fs dir (v :: rest))
      with (match vGit v with
            | None => isDirectory fs (Join dir (vVersion v))
            | Some _ => true
            end && versionDirsOk fs dir rest).
    rewrite andb_false_iff, IH. split.
    + intros [Hv | (w & Hw & Hrest)].
      * exists v. split; [left |]. by destruct (vGit v).
      * exists w. split; [by right | done].
    + intros (w & [-> | Hw]%elem_of_cons & Hg & Hd).
      * left. by rewrite Hg.
      * right. by exists w.
Qed.

Lemma versionDirsReachable_false (fs : FS) (dir : path)
    (versions : list Version) :
  versionDirsReachable fs dir versions = false ↔
  ∃ v, v ∈ versions ∧ vGit v = None
       ∧ statFaulty fs (Join dir (vVersion v)) = true.
Proof.
  induction versions as [|v rest IH].
  - split; [done | by intros (v & ?%not_elem_of_nil & _)].
  - change (versionDirsReachable fs dir (v :: rest))
      with (match vGit v with
            | None => negb (statFaulty fs (Join dir (vVersion v)))
            | Some _ => true
            end && versionDirsReachable fs dir rest).
    rewrite andb_false_iff, IH. split.
    + intros [Hv | (w & Hw & Hrest)].
      * exists v. split; [left |]. destruct (vGit v); [done |].
        by apply negb_false_iff in Hv.
      * exists w. split; [by right | done].
    + intros (w & [-> | Hw]%elem_of_cons & Hg & Hd).
      * left. by rewrite Hg, Hd.
      * right. by exists w.
Qed.

End StatProperties.

(** ** Pure facts about the merge *)

Lemma setIfEmpty_orElse (get : Schema → string)
    (set : string → Schema → Schema) (value : string) (s : Schema) :
  set (get s) s = s →
  setIfEmpty get set value s = set (orElse (get s) value) s.
Proof.
  intros Hid. unfold setIfEmpty, orElse. by case_bool_decide.
Qed.

Lemma backfill_fields (meta ic : Schema) :
  backfill meta ic
  = mkSchema (orElse (Name ic) (Name meta)) (Version' ic)
      (orElse (DisplayName ic) (DisplayName meta))
      (orElse (Description ic) (Description meta)) (Type' ic) (Tags ic)
      (Architectures ic) (orElse (Icon ic) (Icon meta))
      (orElse (ProjectType ic) (ProjectType meta))
      (orElse (Language ic) (Language meta)) (Links ic) (Resources ic)
      (StarterProjects ic) (Git' ic) (orElse (Provider ic) (Provider meta))
      (orElse (SupportUrl ic) (SupportUrl meta)) (Versions ic).
Proof.
  unfold backfill.
  rewrite !setIfEmpty_orElse by (by intros; match goal with |- _ ?s = ?s => destruct s end).
  by destruct ic.
Qed.

Lemma populateVersion_fields (stackName : string) (d : Devfile)
    (vp vc : Version) :
  populateVersion stackName d vp vc
  = mkVersion (vVersion vp) (dSchemaVersion d) (vDefault vc) (vGit vp)
      (vDescription vp) (vTags vp) (vArchitectures vp) (vIcon vp)
      (Some (<["self" := selfLink stackName (vVersion vp)]>
               (default ∅ (vLinks vp))))
      (vResources vp)
      (vStarterProjects vp ++ map spName (dStarterProjects d)).
Proof.
  destruct vp as [? ? ? ? ? ? ? ? [links|] ? ?]; reflexivity.
Qed.

Lemma mergedEntry_fields (d : Devfile) (vp : Version) (stackName : string)
    (vc : Version) (ic : Schema) :
  mergedEntry d vp stackName vc ic
  = mkSchema (orElse (Name ic) (Name (Meta d))) (Version' ic)
      (orElse (DisplayName ic) (DisplayName (Meta d)))
      (orElse (Description ic) (Description (Meta d))) (Type' ic)
      (appendMissing (Tags ic) (vTags vp))
      (appendMissing (Architectures ic) (vArchitectures vp))
      (orElse (Icon ic) (Icon (Meta d)))
      (orElse (ProjectType ic) (ProjectType (Meta d)))
      (orElse (Language ic) (Language (Meta d))) (Links ic) (Resources ic)
      (StarterProjects ic) (Git' ic)
      (orElse (Provider ic) (Provider (Meta d)))
      (orElse (SupportUrl ic) (SupportUrl (Meta d))) (Versions ic).
Proof.
  unfold mergedEntry. rewrite backfill_fields, populateVersion_fields.
  reflexivity.
Qed.

Lemma mergedVersion_fields (d : Devfile) (vp : Version) (stackName : string)
    (files : list FileInfo) (vc : Version) :
  mergedVersion d vp stackName files vc
  = mkVersion (vVersion vp) (dSchemaVersion d) (vDefault vc) (vGit vp)
      (vDescription vp) (vTags vp) (vArchitectures vp) (vIcon vp)
      (Some (<["self" := selfLink stackName (vVersion vp)]>
               (default ∅ (vLinks vp))))
      (vResources vp ++ regularFiles files)
      (vStarterProjects vp ++ map spName (dStarterProjects d)).
Proof.
  unfold mergedVersion. rewrite populateVersion_fields. reflexivity.
Qed.

Lemma setVersions_id (ic : Schema) : setVersions (Versions ic) ic = ic.
Proof. by destruct ic. Qed.

Lemma mergeStep_setVersions (stackName : string) (X : list Version)
    (ic : Schema) (x : Version * option VersionInput) :
  mergeStep stackName (setVersions X ic) x
  = setVersions X (mergeStep stackName ic x).
Proof.
  unfold mergeStep. destruct x.2 as [inp|]; [|done].
  rewrite !mergedEntry_fields. reflexivity.
Qed.

Lemma foldl_mergeStep_setVersions (stackName : string) (X : list Version)
    (steps : list (Version * option VersionInput)) (ic : Schema) :
  foldl (mergeStep stackName) (setVersions X ic) steps
  = setVersions X (foldl (mergeStep stackName) ic steps).
Proof.
  revert ic. induction steps as [|x steps IH]; intros ic; [done |].
  cbn [foldl]. by rewrite mergeStep_setVersions, IH.
Qed.

Lemma foldl_mergeStep_Versions (stackName : string)
    (steps : list (Version * option VersionInput)) (ic : Schema) :
  Versions (foldl (mergeStep stackName) ic steps) = Versions ic.
Proof.
  revert ic. induction steps as [|x steps IH]; intros ic; [done |].
  cbn [foldl]. rewrite IH. unfold mergeStep.
  destruct x.2; [|done]. by rewrite mergedEntry_fields.
Qed.

(** ** The union rule *)

Lemma inArray_elem_of (arr : list string) (value : string) :
  inArray arr value = true ↔ value ∈ arr.
Proof.
  induction arr as [|item arr IH]; simpl.
  - split; [done | by intros ?%not_elem_of_nil].
  - case_bool_decide as Heq.
    + subst. split; [intros _; left | done].
    + rewrite IH. split; [by right |].
      intros [?|?]%elem_of_cons; [congruence | done].
Qed.

Lemma appendMissing_app (acc xs ys : list string) :
  appendMissing acc (xs ++ ys) = appendMissing (appendMissing acc xs) ys.
Proof. revert acc. induction xs as [|x xs IH]; intros acc; simpl; auto. Qed.

Lemma foldl_appendMissing (acc : list string) (ls : list (list string)) :
  foldl appendMissing acc ls = appendMissing acc (concat ls).
Proof.
  revert acc. induction ls as [|l ls IH]; intros acc; simpl; [done |].
  by rewrite IH, appendMissing_app.
Qed.

Lemma elem_of_appendMissing (acc xs : list string) (x : string) :
  x ∈ appendMissing acc xs ↔ x ∈ acc ∨ x ∈ xs.
Proof.
  revert acc. induction xs as [|y xs IH]; intros acc; simpl.
  - split; [by left | by intros [?|?%not_elem_of_nil]].
  - rewrite IH. destruct (inArray acc y) eqn:Hy; simpl.
    + apply inArray_elem_of in Hy. rewrite elem_of_cons.
      split; [tauto |]. intros [?|[->|?]]; tauto.
    + rewrite elem_of_app, list_elem_of_singleton, elem_of_cons. tauto.
Qed.

Lemma NoDup_appendMissing (acc xs : list string) :
  NoDup acc → NoDup (appendMissing acc xs).
Proof.
  revert acc. induction xs as [|y xs IH]; intros acc Hacc; simpl; [done |].
  apply IH. destruct (inArray acc y) eqn:Hy; simpl; [done |].
  apply NoDup_app. split; [done |]. split; [|apply NoDup_singleton].
  intros x Hx ->%list_elem_of_singleton.
  apply inArray_elem_of in Hx. congruence.
Qed.

Lemma filter_not_elem_snoc (acc : list string) (y : string) (l : list string) :
  filter (fun x => x ∉ acc ++ [y]) l
  = filter (fun x => x ∉ acc) (filter (fun x => x ≠ y) l).
Proof.
  induction l as [|x l IH]; [done |].
  rewrite !filter_cons.
  destruct (decide (x = y)) as [->|Hne].
  - rewrite decide_False; [| intros Hn; apply Hn, elem_of_app; right; left].
    rewrite decide_False by (by intros ?). done.
  - rewrite (decide_True (P := x ≠ y)) by done. rewrite filter_cons.
    destruct (decide (x ∈ acc)) as [Hin|Hout].
    + rewrite decide_False; [| intros Hn; apply Hn, elem_of_app; by left].
      rewrite decide_False by (by intros ?). done.
    + rewrite decide_True.
      2:{ rewrite elem_of_app, list_elem_of_singleton. tauto. }
      rewrite decide_True by done. by rewrite IH.
Qed.

Lemma filter_not_elem_absorb (acc : list string) (y : string) (l : list string) :
  y ∈ acc →
  filter (fun x => x ∉ acc) (filter (fun x => x ≠ y) l)
  = filter (fun x => x ∉ acc) l.
Proof.
  intros Hy. induction l as [|x l IH]; [done |].
  rewrite !filter_cons. destruct (decide (x = y)) as [->|Hne].
  - rewrite decide_False by (by intros ?).
    rewrite (decide_False (P := y ∉ acc)) by (by intros ?). done.
  - rewrite (decide_True (P := x ≠ y)) by done. rewrite filter_cons.
    by rewrite IH.
Qed.

Lemma appendMissing_firstOccurrences (acc xs : list string) :
  appendMissing acc xs
  = acc ++ filter (fun x => x ∉ acc) (firstOccurrences xs).
Proof.
  revert acc. induction xs as [|y xs IH]; intros acc; simpl.
  - by rewrite filter_nil, app_nil_r.
  - rewrite filter_cons. destruct (inArray acc y) eqn:Hy; simpl.
    + apply inArray_elem_of in Hy.
      rewrite decide_False by (by intros ?).
      by rewrite IH, filter_not_elem_absorb.
    + assert (y ∉ acc) by (intros ?%inArray_elem_of; congruence).
      rewrite decide_True by done.
      by rewrite IH, <- app_assoc, filter_not_elem_snoc.
Qed.

Lemma elem_of_firstOccurrences (xs : list string) (x : string) :
  x ∈ firstOccurrences xs ↔ x ∈ xs.
Proof.
  induction xs as [|y xs IH]; simpl; [done |].
  rewrite !elem_of_cons, list_elem_of_filter, IH.
  destruct (decide (x = y)); tauto.
Qed.

Lemma NoDup_firstOccurrences (xs : list string) : NoDup (firstOccurrences xs).
Proof.
  induction xs as [|y xs IH]; simpl; [constructor |].
  constructor; [| by apply NoDup_filter].
  rewrite list_elem_of_filter. tauto.
Qed.

(** ** The backfill rule *)

Lemma foldl_orElse (a : string) (bs : list string) :
  foldl orElse a bs = firstNonEmpty (a :: bs).
Proof.
  revert a. induction bs as [|b bs IH]; intros a; simpl.
  - by case_bool_decide.
  - rewrite IH. unfold orElse. simpl.
    destruct (decide (a = "")) as [->|Ha].
    + by rewrite !(bool_decide_eq_true_2 ("" = "")).
    + by rewrite !(bool_decide_eq_false_2 (a = "")) by done.
Qed.

Lemma scalar_mergeStep (f : ScalarField) (stackName : string) (ic : Schema)
    (x : Version * option VersionInput) :
  scalar f (mergeStep stackName ic x)
  = match x.2 with
    | None => scalar f ic
    | Some inp => orElse (scalar f ic) (scalar f (Meta (viDevfile inp)))
    end.
Proof.
  unfold mergeStep. destruct x.2 as [inp|]; [|done].
  rewrite mergedEntry_fields. by destruct f.
Qed.

Lemma scalar_foldl_mergeStep (f : ScalarField) (stackName : string)
    (vs : list Version) (inps : list (option VersionInput)) (ic : Schema) :
  length vs = length inps →
  scalar f (foldl (mergeStep stackName) ic (zip vs inps))
  = firstNonEmpty (scalar f ic
                   :: map (fun d => scalar f (Meta d)) (processedDevfiles inps)).
Proof.
  rewrite <- foldl_orElse. revert vs ic.
  induction inps as [|inp inps IH]; intros [|v vs] ic Hlen;
    try discriminate; [done |].
  cbn [zip_with foldl]. rewrite IH by (by injection Hlen).
  rewrite scalar_mergeStep. by destruct inp.
Qed.

Lemma Tags_foldl_mergeStep (stackName : string) (vs : list Version)
    (inps : list (option VersionInput)) (ic : Schema) :
  length vs = length inps →
  Tags (foldl (mergeStep stackName) ic (zip vs inps))
  = appendMissing (Tags ic) (concat (map vTags (processedProps inps))).
Proof.
  rewrite <- foldl_appendMissing. revert vs ic.
  induction inps as [|inp inps IH]; intros [|v vs] ic Hlen;
    try discriminate; [done |].
  cbn [zip_with foldl]. rewrite IH by (by injection Hlen).
  unfold mergeStep. cbn [snd fst]. destruct inp as [inp|]; [|done].
  by rewrite mergedEntry_fields.
Qed.

Lemma Architectures_foldl_mergeStep (stackName : string) (vs : list Version)
    (inps : list (option VersionInput)) (ic : Schema) :
  length vs = length inps →
  Architectures (foldl (mergeStep stackName) ic (zip vs inps))
  = appendMissing (Architectures ic)
      (concat (map vArchitectures (processedProps inps))).
Proof.
  rewrite <- foldl_appendMissing. revert vs ic.
  induction inps as [|inp inps IH]; intros [|v vs] ic Hlen;
    try discriminate; [done |].
  cbn [zip_with foldl]. rewrite IH by (by injection Hlen).
  unfold mergeStep. cbn [snd fst]. destruct inp as [inp|]; [|done].
  by rewrite mergedEntry_fields.
Qed.

Section MergeProperties.

Context `{faults : !StatPolicy} `{lib : !DevfileLibrary}.

Lemma bind_Ok {A B} (r : result A) (k : A → result B) (b : B) :
  bind r k = Ok b → ∃ a, r = Ok a ∧ k a = Ok b.
Proof. destruct r; simpl; [eauto | done]. Qed.

Lemma isOk_bind_false {A B} (r : result A) (k : A → result B) :
  isOk r = false → isOk (bind r k) = false.
Proof. by destruct r. Qed.

Lemma Ok_inj {A} (a b : A) : Ok a = Ok b → a = b.
Proof. by intros [= ->]. Qed.

Lemma parseStackDevfile_Ok (fs : FS) (dir : path) (stackName : string)
    (force : bool) (vc : Version) (ic : Schema) (vc' : Version) (ic' : Schema) :
  parseStackDevfile fs dir stackName force vc ic = Ok (vc', ic') →
  ∃ p d vp files,
    devfilePathOf fs dir = Ok p
    ∧ (force = false →
       ∃ md, ParseDevfileAndValidate fs p = Ok md
             ∧ checkForRequiredMetadata md = [])
    ∧ ReadFile fs p = Ok (DevfileYaml d)
    ∧ metaAsVersion (Meta d) = Ok vp
    ∧ ReadDir fs dir = Ok files
    ∧ vc' = mergedVersion d vp stackName files vc
    ∧ ic' = mergedEntry d vp stackName vc ic.
Proof.
  unfold parseStackDevfile. intros H.
  apply bind_Ok in H as (p & Hp & H).
  apply bind_Ok in H as ([] & Hvalid & H).
  apply bind_Ok in H as (bytes & Hread & H).
  apply bind_Ok in H as (d & Hd & H).
  apply bind_Ok in H as (vp & Hvp & H).
  apply bind_Ok in H as (files & Hfiles & H).
  exists p, d, vp, files. split; [done |]. split.
  { intros ->. cbn [negb] in Hvalid.
    destruct (ParseDevfileAndValidate fs p) as [md|]; [|discriminate].
    exists md. split; [reflexivity |].
    destruct (checkForRequiredMetadata md); [reflexivity | discriminate]. }
  destruct (ReadFile fs p) as [bytes'|]; [|discriminate].
  apply Ok_inj in Hread as ->.
  destruct bytes; try discriminate. apply Ok_inj in Hd as ->.
  destruct (metaAsVersion (Meta d)) as [vp'|]; [|discriminate].
  apply Ok_inj in Hvp as ->.
  apply Ok_inj, pair_equal_spec in H as [<- <-].
  repeat split; [exact Hfiles].
Qed.

Lemma parseStackDevfile_both (fs : FS) (dir : path) (stackName : string)
    (force : bool) (vc : Version) (ic : Schema) :
  fileExists fs (pjoin dir devfile) = true →
  fileExists fs (pjoin dir devfileHidden) = true →
  parseStackDevfile fs dir stackName force vc ic
  = Err (Errorf ("both " +:+ pathString (pjoin dir devfile) +:+ " and "
                 +:+ pathString (pjoin dir devfileHidden) +:+ " exist")).
Proof.
  intros H1 H2. unfold parseStackDevfile, devfilePathOf. by rewrite H1, H2.
Qed.

Lemma parseStackInfo_exists (fs : FS) (p : path) (s : Schema) :
  parseStackInfo fs p = Ok s → fileExists fs p = true.
Proof.
  unfold parseStackInfo, ReadFile. intros Hp.
  destruct (fsLookup fs p) as [[|data]|] eqn:Hl; try done.
  by eapply fileExists_lookup.
Qed.

Lemma registryLoop_abort (fs : FS) (stackDirPath : path) (force : bool)
    (stackDir : list FileInfo) (index : list Schema) (f : FileInfo) :
  f ∈ stackDir → IsDir f = true →
  isOk (stackComponent fs stackDirPath (fiName f) force) = false →
  isOk (registryLoop fs stackDirPath force stackDir index) = false.
Proof.
  intros Hin Hdir Hf. revert index.
  induction stackDir as [|g rest IH]; intros index;
    [by apply not_elem_of_nil in Hin |].
  simpl. apply elem_of_cons in Hin as [<- | Hin].
  - rewrite Hdir. simpl. by destruct (stackComponent _ _ _ _).
  - destruct (IsDir g); simpl; [| by apply IH].
    destruct (stackComponent fs stackDirPath (fiName g) force); [| done].
    by apply IH.
Qed.

Lemma parseDevfileRegistry_abort (fs : FS) (registryDirPath : path)
    (force : bool) (stackDir : list FileInfo) (f : FileInfo) :
  ReadDir fs (pjoin registryDirPath "stacks") = Ok stackDir →
  f ∈ stackDir → IsDir f = true →
  isOk (stackComponent fs (pjoin registryDirPath "stacks") (fiName f) force)
  = false →
  isOk (parseDevfileRegistry fs registryDirPath force) = false.
Proof.
  intros Hrd Hin Hdir Hf. unfold parseDevfileRegistry. rewrite Hrd.
  by eapply registryLoop_abort.
Qed.

Lemma versionsLoop_abort (fs : FS) (folder : path) (stackName : string)
    (force : bool) (versions : list Version) (v : Version) :
  v ∈ versions → vGit v = None →
  (∀ vc ic, isOk (parseStackDevfile fs (Join folder (vVersion v)) stackName
                    force vc ic) = false) →
  ∀ i ic, isOk (versionsLoop fs folder stackName force i versions ic) = false.
Proof.
  intros Hin Hg Hfail.
  induction versions as [|w rest IH]; intros i ic;
    [by apply not_elem_of_nil in Hin |].
  cbn [versionsLoop]. apply elem_of_cons in Hin as [<- | Hin].
  - rewrite Hg. specialize (Hfail v ic).
    by destruct (parseStackDevfile _ _ _ _ _ _).
  - destruct (vGit w); [by apply IH |].
    destruct (parseStackDevfile _ _ _ _ _ _) as [[vc' ic']|]; [|done].
    by apply IH.
Qed.

Lemma versionsLoop_Ok (fs : FS) (folder : path) (stackName : string)
    (force : bool) (vs : list Version) :
  ∀ (i : nat) (pre : list Version) (ic ic' : Schema),
    Versions ic = pre ++ vs → length pre = i →
    versionsLoop fs folder stackName force i vs ic = Ok ic' →
    ∃ inps,
      Forall2 (readsVersion fs folder force) vs inps
      ∧ ic' = setVersions (pre ++ zip_with (outVersion stackName) vs inps)
                (foldl (mergeStep stackName) ic (zip vs inps)).
Proof.
  induction vs as [|v0 rest IH]; intros i pre ic ic' Hvs Hlen Hloop.
  - exists []. split; [constructor |]. cbn in *. apply Ok_inj in Hloop as <-.
    by rewrite <- Hvs, setVersions_id.
  - cbn [versionsLoop] in Hloop. destruct (vGit v0) as [g|] eqn:Hg.
    + destruct (IH (S i) (pre ++ [v0]) ic ic') as (inps & Hreads & ->);
        [by rewrite <- app_assoc | rewrite length_app; simpl; lia | done |].
      exists (None :: inps). split.
      * constructor; [|done]. unfold readsVersion. by rewrite Hg.
      * cbn [zip_with foldl outVersion]. by rewrite <- app_assoc.
    + destruct (parseStackDevfile fs (Join folder (vVersion v0)) stackName
                  force v0 ic) as [[vc1 ic1]|] eqn:Hparse; [|discriminate].
      apply parseStackDevfile_Ok in Hparse
        as (p & d & vp & files & Hp & Hvalid & Hread & Hvp & Hfiles & -> & ->).
      set (inp := mkVersionInput d vp files).
      set (vc1 := mergedVersion d vp stackName files v0) in *.
      set (ic1 := mergedEntry d vp stackName v0 ic) in *.
      assert (Hv1 : Versions ic1 = pre ++ v0 :: rest).
      { unfold ic1. by rewrite mergedEntry_fields. }
      rewrite Hv1 in Hloop.
      rewrite insert_app_r_alt in Hloop by lia.
      replace (i - length pre)%nat with 0%nat in Hloop by lia.
      cbn [insert list_insert] in Hloop.
      destruct (IH (S i) (pre ++ [vc1])
                  (setVersions (pre ++ vc1 :: rest) ic1) ic')
        as (inps & Hreads & ->);
        [by rewrite <- app_assoc | rewrite length_app; simpl; lia | done |].
      exists (Some inp :: inps). split.
      * constructor; [|done]. unfold readsVersion. rewrite Hg.
        exists p. by repeat split.
      * rewrite foldl_mergeStep_setVersions.
        cbn [zip_with zip foldl]. by rewrite <- app_assoc.
Qed.

Lemma stackComponent_Ok (fs : FS) (stackDirPath : path)
    (stackFolderName : string) (force : bool) (e : Schema) :
  stackComponent fs stackDirPath stackFolderName force = Ok e →
  let folder := pjoin stackDirPath stackFolderName in
  ∃ e0 inps,
    manifestOf fs folder force e0
    ∧ Forall2 (readsVersion fs folder force) (Versions e0) inps
    ∧ e = setType StackDevfileType
            (setVersions
               (zip_with (outVersion stackFolderName) (Versions e0) inps)
               (foldl (mergeStep stackFolderName) e0 (zip (Versions e0) inps))).
Proof.
  intros Hstack folder. unfold stackComponent in Hstack. fold folder in Hstack.
  apply bind_Ok in Hstack as (ic & Hic & Hret). apply Ok_inj in Hret as <-.
  unfold manifestOf.
  destruct (fileExists fs (pjoin folder stackYaml)) eqn:Hyaml.
  - apply bind_Ok in Hic as (e0 & Hparse & Hic).
    apply bind_Ok in Hic as ([] & Hvalid & Hloop).
    destruct (versionsLoop_Ok fs folder stackFolderName force (Versions e0)
                0 [] e0 ic eq_refl eq_refl Hloop) as (inps & Hreads & ->).
    exists e0, inps. split; [split; [done |] | done].
    intros ->. cbn [negb] in Hvalid.
    by destruct (validateStackInfo fs e0 folder) as [[|]|].
  - destruct (parseStackDevfile fs folder stackFolderName force zeroVersion
                zeroSchema) as [[vc1 ic1]|] eqn:Hparse; [|discriminate].
    apply Ok_inj in Hic as <-.
    apply parseStackDevfile_Ok in Hparse
      as (p & d & vp & files & Hp & Hvalid & Hread & Hvp & Hfiles & -> & ->).
    exists legacyManifest, [Some (mkVersionInput d vp files)].
    split; [done |]. split.
    + constructor; [|constructor]. exists p. by repeat split.
    + cbn [legacyManifest Versions setVersions zip_with zip foldl outVersion
           mergeStep snd fst viDevfile viProp viFiles].
      rewrite !mergedEntry_fields, !mergedVersion_fields. reflexivity.
Qed.

Lemma registryLoop_Ok (fs : FS) (stackDirPath : path) (force : bool)
    (stackDir : list FileInfo) :
  ∀ index index',
    registryLoop fs stackDirPath force stackDir index = Ok index' →
    ∃ added,
      index' = index ++ added
      ∧ Forall2 (fun f e => stackComponent fs stackDirPath (fiName f) force
                            = Ok e)
          (filter (fun f => IsDir f = true) stackDir) added.
Proof.
  induction stackDir as [|f rest IH]; intros index index' Hloop.
  - apply Ok_inj in Hloop as <-. exists []. by rewrite app_nil_r.
  - cbn [registryLoop] in Hloop. rewrite filter_cons.
    destruct (IsDir f) eqn:Hdir; cbn [negb] in Hloop.
    + destruct (stackComponent fs stackDirPath (fiName f) force)
        as [e|] eqn:He; [|discriminate].
      destruct (IH _ _ Hloop) as (added & -> & Hall).
      exists (e :: added). rewrite <- app_assoc.
      split; [done |]. rewrite decide_True by done. by constructor.
    + destruct (IH _ _ Hloop) as (added & -> & Hall).
      exists added. split; [done |]. by rewrite decide_False.
Qed.

Lemma parseDevfileRegistry_Ok (fs : FS) (registryDirPath : path)
    (force : bool) (index : list Schema) :
  parseDevfileRegistry fs registryDirPath force = Ok index →
  ∃ stackDir,
    ReadDir fs (pjoin registryDirPath "stacks") = Ok stackDir
    ∧ Forall2 (fun f e => stackComponent fs (pjoin registryDirPath "stacks")
                            (fiName f) force = Ok e)
        (filter (fun f => IsDir f = true) stackDir) index.
Proof.
  unfold parseDevfileRegistry. intros Hreg.
  destruct (ReadDir fs (pjoin registryDirPath "stacks")) as [stackDir|];
    [|discriminate].
  apply registryLoop_Ok in Hreg as (added & -> & Hall). by exists stackDir.
Qed.

(** C7: a directory that holds both devfile.yaml and .devfile.yaml makes
    [parseStackDevfile] fail with the both-exist error, with or without
    force; when only .devfile.yaml is there, that file is the one validated
    and read; and the build fails when the directory of a legacy stack, or
    of a local version of a versioned stack, holds both. *)
Theorem devfile_location (fs : FS) (dir : path) (stackName : string)
    (force : bool) (versionComponent : Version) (indexComponent : Schema) :
  (fileExists fs (pjoin dir devfile) = true →
   fileExists fs (pjoin dir devfileHidden) = true →
   parseStackDevfile fs dir stackName force versionComponent indexComponent
   = Err (Errorf ("both " +:+ pathString (pjoin dir devfile) +:+ " and "
                  +:+ pathString (pjoin dir devfileHidden) +:+ " exist")))
  ∧ (fileExists fs (pjoin dir devfile) = false →
     fileExists fs (pjoin dir devfileHidden) = true →
     devfilePathOf fs dir = Ok (pjoin dir devfileHidden)
     ∧ ∀ vc' ic',
         parseStackDevfile fs dir stackName force versionComponent
           indexComponent = Ok (vc', ic') →
         ∃ d vp files,
           ReadFile fs (pjoin dir devfileHidden) = Ok (DevfileYaml d)
           ∧ (force = false →
              isOk (ParseDevfileAndValidate fs (pjoin dir devfileHidden))
              = true)
           ∧ vc' = mergedVersion d vp stackName files versionComponent
           ∧ ic' = mergedEntry d vp stackName versionComponent indexComponent)
  ∧ (∀ registryDirPath stackDir stackFolderName,
       let stackDirPath := pjoin registryDirPath "stacks" in
       let stackFolderPath := pjoin stackDirPath stackFolderName in
       ReadDir fs stackDirPath = Ok stackDir →
       mkFileInfo stackFolderName true ∈ stackDir →
       fileExists fs (pjoin dir devfile) = true →
       fileExists fs (pjoin dir devfileHidden) = true →
       (fileExists fs (pjoin stackFolderPath stackYaml) = false
        ∧ dir = stackFolderPath)
       ∨ (∃ stackInfo v,
            parseStackInfo fs (pjoin stackFolderPath stackYaml) = Ok stackInfo
            ∧ v ∈ Versions stackInfo ∧ vGit v = None
            ∧ dir = Join stackFolderPath (vVersion v)) →
       isOk (parseDevfileRegistry fs registryDirPath force) = false).
Proof.
  split; [apply parseStackDevfile_both |]. split.
  - intros H1 H2.
    assert (Hp : devfilePathOf fs dir = Ok (pjoin dir devfileHidden))
      by (unfold devfilePathOf; by rewrite H1, H2).
    split; [done |]. intros vc' ic' Hok.
    apply parseStackDevfile_Ok in Hok
      as (p & d & vp & files & Hp' & Hv & Hr & _ & _ & -> & ->).
    rewrite Hp in Hp'. simplify_eq. exists d, vp, files.
    split; [done |]. split; [|done].
    intros Hf. destruct (Hv Hf) as (md & -> & _). done.
  - intros registryDirPath stackDir stackFolderName stackDirPath
      stackFolderPath Hrd Hin H1 H2 Hcase.
    eapply (parseDevfileRegistry_abort _ _ _ _ _ Hrd Hin); [done |].
    cbn [fiName]. fold stackDirPath. unfold stackComponent.
    fold stackFolderPath. apply isOk_bind_false.
    destruct Hcase as [[Hno ->] | (stackInfo & v & Hparse & Hv & Hg & ->)].
    + rewrite Hno. by rewrite parseStackDevfile_both.
    + rewrite (parseStackInfo_exists _ _ _ Hparse), Hparse. cbn [bind].
      destruct (if negb force then _ else _) as [[]|]; cbn [bind];
        [|reflexivity].
      eapply versionsLoop_abort; [done..|].
      intros vc ic. by rewrite parseStackDevfile_both.
Qed.

End MergeProperties.

Section ManifestProperties.

Context `{faults : !StatPolicy} `{lib : !DevfileLibrary}.

(** The structural check where [os.Stat] can look for every version
    folder: it returns a list of errors, which is not empty exactly when the
    name, the display name or the icon is empty, the versions list is empty,
    the versions marked default are not exactly one, or a version without a
    remote source has no directory at the path its identifier joins to the
    stack folder; without force, such a manifest makes the stack fail with
    the errors of the check, whatever its versions hold, and the build with
    it. *)
Theorem manifest_structural_check (fs : FS) (stackInfo : Schema)
    (registryDirPath : path) (stackFolderName : string) :
  let stackDirPath := pjoin registryDirPath "stacks" in
  let stackfolderDir := pjoin stackDirPath stackFolderName in
  versionDirsReachable fs stackfolderDir (Versions stackInfo) = true →
  ∃ errors,
    validateStackInfo fs stackInfo stackfolderDir = Returns errors
    ∧ (errors ≠ [] ↔
       Name stackInfo = "" ∨ DisplayName stackInfo = "" ∨ Icon stackInfo = ""
       ∨ Versions stackInfo = []
       ∨ defaultCount (Versions stackInfo) ≠ 1%nat
       ∨ ∃ v, v ∈ Versions stackInfo ∧ vGit v = None
              ∧ isDirectory fs (Join stackfolderDir (vVersion v)) = false)
    ∧ (fileExists fs (pjoin stackfolderDir stackYaml) = true →
       parseStackInfo fs (pjoin stackfolderDir stackYaml) = Ok stackInfo →
       errors ≠ [] →
       stackComponent fs stackDirPath stackFolderName false
       = Err (Errorf (stackFolderName +:+ " stack.yaml is not valid: "
                      +:+ showErrors errors))
       ∧ ∀ stackDir,
           ReadDir fs stackDirPath = Ok stackDir →
           mkFileInfo stackFolderName true ∈ stackDir →
           isOk (parseDevfileRegistry fs registryDirPath false) = false).
Proof.
  intros stackDirPath stackfolderDir Hreach.
  destruct (validateStackInfo_returns fs stackInfo stackfolderDir Hreach)
    as (errors & Hret & Hnil).
  exists errors. split; [done |]. split.
  - rewrite Hnil. rewrite <- versionDirsOk_false.
    destruct (decide (Name stackInfo = "")), (decide (DisplayName stackInfo = "")),
      (decide (Icon stackInfo = "")), (Versions stackInfo) as [|v0 vs] eqn:Hvs,
      (decide (defaultCount (Versions stackInfo) = 1%nat)),
      (versionDirsOk fs stackfolderDir (Versions stackInfo)) eqn:Hd;
      rewrite ?Hvs in *; try tauto; try (intuition congruence).
  - intros Hyaml Hparse Hbad.
    assert (Hstack : stackComponent fs stackDirPath stackFolderName false
      = Err (Errorf (stackFolderName +:+ " stack.yaml is not valid: "
                     +:+ showErrors errors))).
    { unfold stackComponent. fold stackDirPath. fold stackfolderDir.
      rewrite Hyaml. cbn [bind]. rewrite Hparse. cbn [bind negb].
      rewrite Hret. by destruct errors. }
    split; [done |]. intros stackDir Hrd Hin.
    eapply (parseDevfileRegistry_abort _ _ _ _ _ Hrd Hin); [done |].
    cbn [fiName]. fold stackDirPath. by rewrite Hstack.
Qed.

(** C5, where it fails: a version without a remote source at whose folder
    [os.Stat] fails with an error other than not-exist makes the structural
    check panic on a nil [FileInfo], where an error is to be reported.  So
    it is with the manifest of the registry [strayRegistry]: its version
    stack.yaml/x has no directory, the path of its folder runs through the
    manifest file, and the build without force ends in the panic, not in the
    error of an invalid manifest. *)
Theorem manifest_check_nil_dereference :
  (∀ (fs : FS) (stackInfo : Schema) (stackfolderDir : path) (v : Version),
     v ∈ Versions stackInfo → vGit v = None →
     statFaulty fs (Join stackfolderDir (vVersion v)) = true →
     (∃ err, Stat fs (Join stackfolderDir (vVersion v)) = Err err
             ∧ IsNotExist err = false)
     ∧ validateStackInfo fs stackInfo stackfolderDir = Panics nilDereference)
  ∧ (let folder := pjoin stacksDir "stray" in
     parseStackInfo strayRegistry (pjoin folder stackYaml) = Ok strayManifest
     ∧ Join folder "stack.yaml/x"
       = ["registry"; "stacks"; "stray"; "stack.yaml"; "x"]
     ∧ isDirectory strayRegistry (Join folder "stack.yaml/x") = false
     ∧ @Stat noFaults strayRegistry (Join folder "stack.yaml/x")
       = Err (OtherPathError "stat" "registry/stacks/stray/stack.yaml/x"
                "not a directory")
     ∧ @validateStackInfo noFaults strayRegistry strayManifest folder
       = Panics nilDereference
     ∧ @stackComponent noFaults lib strayRegistry stacksDir "stray" false
       = Err (RuntimePanic nilDereference)
     ∧ @parseDevfileRegistry noFaults lib strayRegistry ["registry"] false
       = Err (RuntimePanic nilDereference)).
Proof.
  split.
  - intros fs stackInfo stackfolderDir v Hv Hg Hu. split.
    + destruct (Stat_faulty fs _ Hu) as (reason & ->). by eexists.
    + apply validateStackInfo_panics, versionDirsReachable_false.
      by exists v.
  - cbv zeta. repeat split; vm_compute; reflexivity.
Qed.

End ManifestProperties.

(** ** Finished entries *)

Lemma elem_of_concat (ls : list (list string)) (x : string) :
  x ∈ concat ls ↔ ∃ l, l ∈ ls ∧ x ∈ l.
Proof.
  induction ls as [|l ls IH]; simpl.
  - split; [by intros ?%not_elem_of_nil | by intros (l & ?%not_elem_of_nil & _)].
  - rewrite elem_of_app, IH. split.
    + intros [Hx | (l' & Hl' & Hx)]; [exists l; split; [left | done] |].
      exists l'. split; [by right | done].
    + intros (l' & [-> | Hl']%elem_of_cons & Hx); [by left |].
      right. by exists l'.
Qed.

Lemma Links_foldl_mergeStep (stackName : string)
    (steps : list (Version * option VersionInput)) (ic : Schema) :
  Links (foldl (mergeStep stackName) ic steps) = Links ic
  ∧ Resources (foldl (mergeStep stackName) ic steps) = Resources ic.
Proof.
  revert ic. induction steps as [|x steps IH]; intros ic; [done |].
  cbn [foldl]. destruct (IH (mergeStep stackName ic x)) as [-> ->].
  unfold mergeStep. destruct x.2; [|done]. by rewrite mergedEntry_fields.
Qed.

Lemma outVersion_Default (stackName : string) (v0 : Version)
    (inp : option VersionInput) :
  vDefault (outVersion stackName v0 inp) = vDefault v0.
Proof.
  destruct inp as [inp|]; [|done]. cbn [outVersion].
  by rewrite mergedVersion_fields.
Qed.

Lemma outVersions_Default (stackName : string) (vs : list Version)
    (inps : list (option VersionInput)) :
  length vs = length inps →
  map vDefault (zip_with (outVersion stackName) vs inps) = map vDefault vs.
Proof.
  revert inps. induction vs as [|v vs IH]; intros [|inp inps] Hlen;
    try discriminate; [done |].
  cbn [zip_with map]. rewrite outVersion_Default. f_equal.
  apply IH. by injection Hlen.
Qed.

Lemma defaultCount_flags (vs ws : list Version) :
  map vDefault vs = map vDefault ws → defaultCount vs = defaultCount ws.
Proof.
  unfold defaultCount. revert ws.
  induction vs as [|v vs IH]; intros [|w ws] Hmap; try discriminate; [done |].
  cbn [map] in Hmap. injection Hmap as Hd Hmap. rewrite !filter_cons, Hd.
  destruct (decide (vDefault w = true)); cbn [length]; by rewrite (IH ws).
Qed.

Lemma selfOf_mergedVersion (d : Devfile) (vp : Version) (stackName : string)
    (files : list FileInfo) (vc : Version) :
  selfOf (mergedVersion d vp stackName files vc)
  = Some (selfLink stackName (vVersion (mergedVersion d vp stackName files vc))).
Proof.
  rewrite mergedVersion_fields. unfold selfOf.
  cbn [vLinks vVersion mbind option_bind]. apply lookup_insert_eq.
Qed.

Section EntryProperties.

Context `{faults : !StatPolicy} `{lib : !DevfileLibrary}.

(** C10: a successful [parseStackDevfile] returns the version entry with
    the default flag it was given; hence the flags of the versions of a
    finished stack are those of its manifest, and the single version of a
    legacy stack is the default one. *)
Theorem default_flag_preserved (fs : FS) (devfileDirPath : path)
    (stackName : string) (force : bool) (versionComponent : Version)
    (indexComponent : Schema) (versionComponent' : Version)
    (indexComponent' : Schema) :
  parseStackDevfile fs devfileDirPath stackName force versionComponent
    indexComponent = Ok (versionComponent', indexComponent') →
  vDefault versionComponent' = vDefault versionComponent
  ∧ ∀ stackDirPath e,
      stackComponent fs stackDirPath stackName force = Ok e →
      ∃ e0, manifestOf fs (pjoin stackDirPath stackName) force e0
            ∧ map vDefault (Versions e) = map vDefault (Versions e0).
Proof.
  intros Hparse. split.
  - apply parseStackDevfile_Ok in Hparse
      as (p & d & vp & files & _ & _ & _ & _ & _ & -> & _).
    by rewrite mergedVersion_fields.
  - intros stackDirPath e Hstack.
    apply stackComponent_Ok in Hstack as (e0 & inps & Hm & Hreads & ->).
    exists e0. split; [done |]. cbn [setType Versions setVersions].
    apply outVersions_Default. by eapply Forall2_length.
Qed.

(** C9 (as the code has it): the link under "self" of a processed version
    is devfile-catalog/<directory name of the stack>:<version>, where the
    version is the one the version entry carries, which is the one its
    devfile's metadata yield when re-read as a version; the legacy layout
    is no exception. *)
Theorem version_self_link (fs : FS) (stackDirPath : path)
    (stackFolderName : string) (force : bool) (e : Schema) :
  stackComponent fs stackDirPath stackFolderName force = Ok e →
  ∃ e0 inps,
    manifestOf fs (pjoin stackDirPath stackFolderName) force e0
    ∧ Forall2 (readsVersion fs (pjoin stackDirPath stackFolderName) force)
        (Versions e0) inps
    ∧ ∀ i inp,
        inps !! i = Some (Some inp) →
        ∃ v, Versions e !! i = Some v
             ∧ vVersion v = vVersion (viProp inp)
             ∧ selfOf v = Some (selfLink stackFolderName (vVersion v)).
Proof.
  intros Hstack.
  apply stackComponent_Ok in Hstack as (e0 & inps & Hm & Hreads & ->).
  exists e0, inps. split; [done |]. split; [done |].
  intros i inp Hi. cbn [setType Versions setVersions].
  destruct (Forall2_lookup_r _ _ _ _ _ Hreads Hi) as (v0 & Hv0 & _).
  exists (outVersion stackFolderName v0 (Some inp)).
  split; [| split].
  - rewrite lookup_zip_with, Hv0, Hi. reflexivity.
  - cbn [outVersion]. by rewrite mergedVersion_fields.
  - cbn [outVersion]. apply selfOf_mergedVersion.
Qed.

(** C3 (as the code has it): each entry-level scalar of a finished stack is
    the first non-empty value in the sequence that starts with the value of
    the manifest and goes on with the metadata of the processed versions,
    in order; a value the manifest sets is never replaced, and the legacy
    layout starts with every scalar empty. *)
Theorem entry_scalars_first_writer (fs : FS) (stackDirPath : path)
    (stackFolderName : string) (force : bool) (e : Schema) :
  stackComponent fs stackDirPath stackFolderName force = Ok e →
  ∃ e0 inps,
    manifestOf fs (pjoin stackDirPath stackFolderName) force e0
    ∧ Forall2 (readsVersion fs (pjoin stackDirPath stackFolderName) force)
        (Versions e0) inps
    ∧ (∀ f, scalar f e
            = firstNonEmpty
                (scalar f e0
                 :: map (fun d => scalar f (Meta d)) (processedDevfiles inps)))
    ∧ (∀ f, scalar f e0 ≠ "" → scalar f e = scalar f e0)
    ∧ (fileExists fs (pjoin (pjoin stackDirPath stackFolderName) stackYaml)
       = false → ∀ f, scalar f e0 = "").
Proof.
  intros Hstack.
  apply stackComponent_Ok in Hstack as (e0 & inps & Hm & Hreads & ->).
  exists e0, inps. split; [done |]. split; [done |].
  assert (Hsc : ∀ f,
    scalar f (setType StackDevfileType
                (setVersions
                   (zip_with (outVersion stackFolderName) (Versions e0) inps)
                   (foldl (mergeStep stackFolderName) e0
                      (zip (Versions e0) inps))))
    = firstNonEmpty
        (scalar f e0
         :: map (fun d => scalar f (Meta d)) (processedDevfiles inps))).
  { intros f. rewrite <- (scalar_foldl_mergeStep f stackFolderName
                            (Versions e0) inps e0)
      by (by eapply Forall2_length).
    by destruct f. }
  split; [done |]. split.
  - intros f Hne. rewrite Hsc. cbn [firstNonEmpty].
    by rewrite bool_decide_eq_false_2.
  - intros Hno f. unfold manifestOf in Hm. rewrite Hno in Hm. subst e0.
    by destruct f.
Qed.

(** C4 (as the code has it): the entry-level tags of a finished stack are
    the tags of the manifest followed by the first occurrences, in
    processing order, of the tags of the processed versions that the
    manifest does not list; as a set they are the union of the manifest's
    tags and the versions' tags, whatever the order of the versions, and
    they are duplicate-free when the manifest's tags are.  The same holds
    of the architectures. *)
Theorem entry_tags_union (fs : FS) (stackDirPath : path)
    (stackFolderName : string) (force : bool) (e : Schema) :
  stackComponent fs stackDirPath stackFolderName force = Ok e →
  ∃ e0 inps,
    manifestOf fs (pjoin stackDirPath stackFolderName) force e0
    ∧ Forall2 (readsVersion fs (pjoin stackDirPath stackFolderName) force)
        (Versions e0) inps
    ∧ (let tags := concat (map vTags (processedProps inps)) in
       Tags e = Tags e0
                ++ filter (fun x => x ∉ Tags e0) (firstOccurrences tags)
       ∧ (∀ x, x ∈ Tags e ↔
               x ∈ Tags e0 ∨ ∃ v, v ∈ processedProps inps ∧ x ∈ vTags v)
       ∧ (NoDup (Tags e0) → NoDup (Tags e)))
    ∧ (let archs := concat (map vArchitectures (processedProps inps)) in
       Architectures e
       = Architectures e0
         ++ filter (fun x => x ∉ Architectures e0) (firstOccurrences archs)
       ∧ (∀ x, x ∈ Architectures e ↔
               x ∈ Architectures e0
               ∨ ∃ v, v ∈ processedProps inps ∧ x ∈ vArchitectures v)
       ∧ (NoDup (Architectures e0) → NoDup (Architectures e)))
    ∧ (∀ (init : list string) (lists lists' : list (list string)),
         lists ≡ₚ lists' →
         ∀ x, x ∈ appendMissing init (concat lists)
              ↔ x ∈ appendMissing init (concat lists')).
Proof.
  intros Hstack.
  apply stackComponent_Ok in Hstack as (e0 & inps & Hm & Hreads & ->).
  exists e0, inps. split; [done |]. split; [done |].
  pose proof (Forall2_length _ _ _ Hreads) as Hlen.
  assert (Hconcat : ∀ (g : Version → list string) x,
    x ∈ concat (map g (processedProps inps))
    ↔ ∃ v, v ∈ processedProps inps ∧ x ∈ g v).
  { intros g x. rewrite elem_of_concat. split.
    - intros (l & Hl & Hx).
      apply list_elem_of_In, in_map_iff in Hl as (v & <- & Hv%list_elem_of_In).
      by exists v.
    - intros (v & Hv & Hx). exists (g v). split; [|done].
      apply list_elem_of_In, in_map, list_elem_of_In, Hv. }
  split; [| split].
  - cbn zeta. cbn [setType Tags setVersions].
    rewrite (Tags_foldl_mergeStep stackFolderName (Versions e0) inps e0 Hlen).
    split; [apply appendMissing_firstOccurrences |]. split.
    + intros x. by rewrite elem_of_appendMissing, Hconcat.
    + apply NoDup_appendMissing.
  - cbn zeta. cbn [setType Architectures setVersions].
    rewrite (Architectures_foldl_mergeStep stackFolderName (Versions e0) inps
               e0 Hlen).
    split; [apply appendMissing_firstOccurrences |]. split.
    + intros x. by rewrite elem_of_appendMissing, Hconcat.
    + apply NoDup_appendMissing.
  - intros init lists lists' Hperm x. rewrite !elem_of_appendMissing.
    rewrite !elem_of_concat.
    split.
    + intros [?|(l & Hl & Hx)]; [by left |]. right. exists l.
      split; [by rewrite <- Hperm | done].
    + intros [?|(l & Hl & Hx)]; [by left |]. right. exists l.
      split; [by rewrite Hperm | done].
Qed.

Lemma checkForRequiredMetadata_nil (md : DevfileMetadata) :
  checkForRequiredMetadata md = [] → mdName md ≠ "".
Proof.
  unfold checkForRequiredMetadata. intros Hnil Hname.
  rewrite (bool_decide_eq_true_2 _ Hname) in Hnil.
  revert Hnil. repeat case_bool_decide; discriminate.
Qed.

End EntryProperties.

Lemma regularFiles_listed (fs : FS) (dir : path) (files : list FileInfo)
    (name : string) (data : FileData) :
  ReadDir fs dir = Ok files →
  ReadFile fs (dir ++ [name]) = Ok data →
  name ∈ regularFiles files.
Proof.
  unfold ReadDir, ReadFile. intros Hdir Hfile.
  destruct (fsLookup fs dir) as [[|d]|]; try done. apply Ok_inj in Hdir as <-.
  destruct (fsLookup fs (dir ++ [name])) as [[|data']|] eqn:Hl; try done.
  apply entries_child in Hl. unfold regularFiles.
  apply (list_elem_of_fmap_2 fiName _ (mkFileInfo name false)).
  by apply list_elem_of_filter.
Qed.

Section VersionProperties.

Context `{faults : !StatPolicy} `{lib : !DevfileLibrary}.

Lemma devfilePathOf_name (fs : FS) (dir p : path) :
  devfilePathOf fs dir = Ok p →
  ∃ name, (name = devfile ∨ name = devfileHidden) ∧ p = dir ++ [name].
Proof.
  unfold devfilePathOf.
  destruct (fileExists fs (pjoin dir devfile)
            && fileExists fs (pjoin dir devfileHidden)); [done |].
  destruct (fileExists fs (pjoin dir devfileHidden)); intros [= <-].
  - exists devfileHidden. split; [by right | done].
  - exists devfile. split; [by left | done].
Qed.

(** What a processed version records: the self link, and as resources
    those its devfile's metadata declare followed by the regular files of
    its directory, the devfile among them. *)
Lemma processed_version (fs : FS) (folder : path) (force : bool)
    (stackName : string) (v0 : Version) (inp : VersionInput) :
  readsVersion fs folder force v0 (Some inp) →
  ∃ name,
    (name = devfile ∨ name = devfileHidden)
    ∧ devfilePathOf fs (Join folder (vVersion v0))
      = Ok (Join folder (vVersion v0) ++ [name])
    ∧ ReadFile fs (Join folder (vVersion v0) ++ [name])
      = Ok (DevfileYaml (viDevfile inp))
    ∧ selfOf (outVersion stackName v0 (Some inp))
      = Some (selfLink stackName
                (vVersion (outVersion stackName v0 (Some inp))))
    ∧ vResources (outVersion stackName v0 (Some inp))
      = vResources (viProp inp) ++ regularFiles (viFiles inp)
    ∧ name ∈ vResources (outVersion stackName v0 (Some inp)).
Proof.
  unfold readsVersion. destruct (vGit v0); [done |].
  intros (p & Hp & _ & Hread & _ & Hfiles).
  destruct (devfilePathOf_name _ _ _ Hp) as (name & Hname & ->).
  exists name. split; [done |]. split; [done |]. split; [done |].
  cbn [outVersion]. split; [apply selfOf_mergedVersion |].
  rewrite mergedVersion_fields. cbn [vResources]. split; [done |].
  apply elem_of_app. right. by eapply regularFiles_listed.
Qed.

Lemma remote_version (fs : FS) (folder : path) (force : bool)
    (stackName : string) (v0 : Version) (inp : option VersionInput) :
  readsVersion fs folder force v0 inp → vGit v0 ≠ None →
  outVersion stackName v0 inp = v0.
Proof.
  unfold readsVersion. destruct (vGit v0), inp; try done.
Qed.

End VersionProperties.

Section DirectoryEntries.

Context `{faults : !StatPolicy} `{lib : !DevfileLibrary}.

(** C8 (as the code has it): in a build without force, every
    directory-derived entry is of stack kind, has as many versions as its
    manifest declares (one in the legacy layout), exactly one of them marked
    default, and the links and resources of its manifest (none in the legacy
    layout): the build neither fills nor checks them.  Links and resources
    are recorded on the versions the build processes, those without a
    remote source: such a version holds the self link, and as resources
    those its devfile's metadata declare followed by the regular files of
    its directory, the devfile among them; a version with a remote source
    is kept as the manifest declares it.  The name of a versioned stack is
    the non-empty name of its manifest; that of a legacy stack is the name
    in the metadata of the devfile of its folder, for which the external
    validator has reported a non-empty name. *)
Theorem directory_entries_invariant (fs : FS) (registryDirPath : path)
    (index : list Schema) :
  parseDevfileRegistry fs registryDirPath false = Ok index →
  ∃ stackDir,
    ReadDir fs (pjoin registryDirPath "stacks") = Ok stackDir
    ∧ Forall2
        (fun f e =>
           let folder := pjoin (pjoin registryDirPath "stacks") (fiName f) in
           ∃ e0 inps,
             manifestOf fs folder false e0
             ∧ Forall2 (readsVersion fs folder false) (Versions e0) inps
             ∧ Type' e = StackDevfileType
             ∧ length (Versions e) = length (Versions e0)
             ∧ defaultCount (Versions e) = 1%nat
             ∧ Links e = Links e0 ∧ Resources e = Resources e0
             ∧ (∀ i v0 inp,
                  Versions e0 !! i = Some v0 → inps !! i = Some (Some inp) →
                  ∃ v name,
                    Versions e !! i = Some v
                    ∧ vGit v0 = None
                    ∧ (name = devfile ∨ name = devfileHidden)
                    ∧ devfilePathOf fs (Join folder (vVersion v0))
                      = Ok (Join folder (vVersion v0) ++ [name])
                    ∧ ReadFile fs (Join folder (vVersion v0) ++ [name])
                      = Ok (DevfileYaml (viDevfile inp))
                    ∧ selfOf v = Some (selfLink (fiName f) (vVersion v))
                    ∧ vResources v
                      = vResources (viProp inp) ++ regularFiles (viFiles inp)
                    ∧ name ∈ vResources v)
             ∧ (∀ i v0,
                  Versions e0 !! i = Some v0 →
                  (vGit v0 = None ↔ ∃ inp, inps !! i = Some (Some inp))
                  ∧ (vGit v0 ≠ None → Versions e !! i = Some v0))
             ∧ (fileExists fs (pjoin folder stackYaml) = true →
                Name e = Name e0 ∧ Name e ≠ "")
             ∧ (fileExists fs (pjoin folder stackYaml) = false →
                Links e = None ∧ Resources e = None
                ∧ ∃ p d md,
                    devfilePathOf fs folder = Ok p
                    ∧ ReadFile fs p = Ok (DevfileYaml d)
                    ∧ ParseDevfileAndValidate fs p = Ok md
                    ∧ mdName md ≠ "" ∧ Name e = Name (Meta d)))
        (filter (fun f => IsDir f = true) stackDir) index.
Proof.
  intros Hreg.
  apply parseDevfileRegistry_Ok in Hreg as (stackDir & Hrd & Hall).
  exists stackDir. split; [done |].
  eapply Forall2_impl; [exact Hall |]. clear Hall.
  intros f e Hstack folder.
  apply stackComponent_Ok in Hstack as (e0 & inps & Hm & Hreads & ->).
  fold folder in Hm, Hreads.
  pose proof (Forall2_length _ _ _ Hreads) as Hlen.
  exists e0, inps. split; [done |]. split; [done |]. split; [done |].
  cbn [setType Versions setVersions Links Resources Name].
  destruct (Links_foldl_mergeStep (fiName f) (zip (Versions e0) inps) e0)
    as [HL HR].
  pose proof (scalar_foldl_mergeStep FName (fiName f) (Versions e0) inps e0
                Hlen) as Hname. cbn [scalar] in Hname.
  assert (Hcount : defaultCount (Versions e0) = 1%nat).
  { unfold manifestOf in Hm.
    destruct (fileExists fs (pjoin folder stackYaml)).
    - destruct Hm as [_ Hv]. specialize (Hv eq_refl).
      apply validateStackInfo_nil in Hv. tauto.
    - by subst e0. }
  split; [| split; [| split; [| split; [| split; [| split; [| split]]]]]].
  - rewrite length_zip_with_l_eq; done.
  - rewrite <- Hcount. apply defaultCount_flags.
    by apply outVersions_Default.
  - done.
  - done.
  - intros i v0 inp Hv0 Hinp.
    pose proof (Forall2_lookup_lr _ _ _ _ _ _ Hreads Hv0 Hinp) as Hread.
    destruct (processed_version _ _ _ (fiName f) _ _ Hread)
      as (name & Hname' & Hp & Hfile & Hself & Hres & Hin).
    exists (outVersion (fiName f) v0 (Some inp)), name.
    split; [by rewrite lookup_zip_with, Hv0, Hinp |].
    split; [unfold readsVersion in Hread; by destruct (vGit v0) |].
    done.
  - intros i v0 Hv0.
    destruct (Forall2_lookup_l _ _ _ _ _ Hreads Hv0) as (inp & Hinp & Hread).
    split.
    + unfold readsVersion in Hread. split.
      * intros Hg. rewrite Hg in Hread. destruct inp as [inp|]; [|done].
        by exists inp.
      * intros (inp' & Hinp'). rewrite Hinp' in Hinp. simplify_eq.
        by destruct (vGit v0).
    + intros Hg. rewrite lookup_zip_with, Hv0, Hinp. cbn.
      f_equal. by eapply remote_version.
  - intros Hyaml. unfold manifestOf in Hm. rewrite Hyaml in Hm.
    destruct Hm as [_ Hv]. specialize (Hv eq_refl).
    apply validateStackInfo_nil in Hv as (Hn & _).
    rewrite Hname. cbn [firstNonEmpty].
    by rewrite (bool_decide_eq_false_2 _ Hn).
  - intros Hyaml. unfold manifestOf in Hm. rewrite Hyaml in Hm. subst e0.
    rewrite HL, HR. split; [done |]. split; [done |].
    cbn [legacyManifest Versions setVersions] in Hreads.
    apply Forall2_cons_inv_l in Hreads as (inp & inps' & Hread & Hnil & ->).
    apply Forall2_nil_inv_l in Hnil as ->.
    unfold readsVersion in Hread. cbn [vGit setDefault zeroVersion] in Hread.
    destruct inp as [inp|]; [|done].
    destruct Hread as (p & Hp & Hvalid & Hfile & _).
    destruct (Hvalid eq_refl) as (md & Hmd & Hreq).
    exists p, (viDevfile inp), md.
    split; [exact Hp |]. split; [done |]. split; [done |].
    split; [by apply checkForRequiredMetadata_nil |].
    rewrite Hname. unfold processedDevfiles.
    cbn [omap fmap option_fmap option_map map legacyManifest setVersions
         zeroSchema Name firstNonEmpty].
    rewrite (bool_decide_eq_true_2 ("" = "")) by done.
    change (firstNonEmpty [Name (Meta (viDevfile inp))]
            = Name (Meta (viDevfile inp))).
    cbn [firstNonEmpty]. case_bool_decide as Hd; [by rewrite Hd | done].
Qed.

End DirectoryEntries.

(** ** Validation policy and the supplemental loader *)

Section SupplementalProperties.

Context `{faults : !StatPolicy} `{lib : !DevfileLibrary}.

Lemma extraEntry_passes (fs : FS) (samplesDir : path) (validateSamples : bool)
    (t : DevfileType) (devfileEntry : Schema) (out : list string) :
  entryPasses fs samplesDir validateSamples t devfileEntry = true →
  extraEntry fs samplesDir validateSamples false t devfileEntry out
  = (out ++ softMessage (setType t devfileEntry) t,
     Ok (setType t devfileEntry)).
Proof.
  unfold entryPasses, extraEntry, hardViolation, softMessage. cbn [negb].
  intros [Hs Hh]%andb_true_iff.
  destruct (sampleDevfileError _ _ _ _ _); [done |].
  destruct (validateIndexComponent _ t) as [[]|]; simpl in *;
    rewrite ?app_nil_r; done.
Qed.

Lemma extraEntry_fails (fs : FS) (samplesDir : path) (validateSamples : bool)
    (t : DevfileType) (devfileEntry : Schema) (out : list string) :
  entryPasses fs samplesDir validateSamples t devfileEntry = false →
  isOk (extraEntry fs samplesDir validateSamples false t devfileEntry out).2
  = false.
Proof.
  unfold entryPasses, extraEntry, hardViolation. cbn [negb].
  destruct (sampleDevfileError _ _ _ _ _); [done |].
  by destruct (validateIndexComponent _ t) as [[]|].
Qed.

Lemma extraEntriesLoop_passes (fs : FS) (samplesDir : path)
    (validateSamples : bool) (t : DevfileType) (es : list Schema) :
  ∀ out index,
    forallb (entryPasses fs samplesDir validateSamples t) es = true →
    extraEntriesLoop fs samplesDir validateSamples false t es out index
    = (out ++ flat_map (fun c => softMessage c t) (map (setType t) es),
       Ok (index ++ map (setType t) es)).
Proof.
  induction es as [|entry es IH]; intros out index Hall.
  - cbn. by rewrite !app_nil_r.
  - cbn [forallb] in Hall. apply andb_true_iff in Hall as [He Hall].
    cbn [extraEntriesLoop]. rewrite (extraEntry_passes _ _ _ _ _ _ He).
    rewrite IH by done. cbn [map flat_map]. by rewrite <- !app_assoc.
Qed.

Lemma extraEntriesLoop_fails (fs : FS) (samplesDir : path)
    (validateSamples : bool) (t : DevfileType) (es : list Schema) :
  ∀ out index,
    forallb (entryPasses fs samplesDir validateSamples t) es = false →
    isOk (extraEntriesLoop fs samplesDir validateSamples false t es out
            index).2 = false.
Proof.
  induction es as [|entry es IH]; intros out index Hall; [done |].
  cbn [forallb] in Hall. cbn [extraEntriesLoop].
  destruct (entryPasses fs samplesDir validateSamples t entry) eqn:He.
  - rewrite (extraEntry_passes _ _ _ _ _ _ He). by apply IH.
  - pose proof (extraEntry_fails _ _ _ _ _ out He) as Hf.
    by destruct (extraEntry _ _ _ _ _ _ _) as [out' [c|err]].
Qed.

Lemma extraEntry_stops (fs : FS) (samplesDir : path) (validateSamples : bool)
    (t : DevfileType) (devfileEntry : Schema) (out : list string) :
  entryPasses fs samplesDir validateSamples t devfileEntry = false →
  ∃ err, extraEntry fs samplesDir validateSamples false t devfileEntry out
         = (out, Err err).
Proof.
  unfold entryPasses, extraEntry, hardViolation. cbn [negb].
  destruct (sampleDevfileError _ _ _ _ _); [by eexists |].
  destruct (validateIndexComponent _ t) as [[]|]; cbn; intros; try done;
    by eexists.
Qed.

(** The loop stops at the first entry that does not pass: nothing is
    printed for the entries after it. *)
Lemma extraEntriesLoop_stops (fs : FS) (samplesDir : path)
    (validateSamples : bool) (t : DevfileType) (pre : list Schema)
    (c : Schema) (post : list Schema) :
  ∀ out index,
    forallb (entryPasses fs samplesDir validateSamples t) pre = true →
    entryPasses fs samplesDir validateSamples t c = false →
    ∃ err,
      extraEntriesLoop fs samplesDir validateSamples false t
        (pre ++ c :: post) out index
      = (out ++ flat_map (fun c => softMessage c t) (map (setType t) pre),
         Err err).
Proof.
  induction pre as [|entry pre IH]; intros out index Hpre Hc.
  - cbn [app extraEntriesLoop map flat_map].
    destruct (extraEntry_stops fs samplesDir validateSamples t c out Hc)
      as (err & ->).
    exists err. by rewrite app_nil_r.
  - cbn [forallb] in Hpre. apply andb_true_iff in Hpre as [He Hpre].
    cbn [app extraEntriesLoop]. rewrite (extraEntry_passes _ _ _ _ _ _ He).
    destruct (IH (out ++ softMessage (setType t entry) t)
                (index ++ [setType t entry]) Hpre Hc) as (err & ->).
    exists err. cbn [map flat_map]. by rewrite <- app_assoc.
Qed.

Lemma hardViolation_iff (c : Schema) (t : DevfileType) :
  hardViolation c t = true ↔
  (t = StackDevfileType
   ∧ (Name c = "" ∨ Links c = None ∨ Resources c = None))
  ∨ (t = SampleDevfileType
     ∧ (Git' c = None ∨ ∃ git, Git' c = Some git ∧ 1 < size (Remotes git))%nat).
Proof.
  unfold hardViolation, validateIndexComponent.
  destruct (decide (t = StackDevfileType)) as [->|Hstack].
  - rewrite (bool_decide_eq_true_2 (StackDevfileType = StackDevfileType))
      by done.
    repeat case_bool_decide; cbn [softViolation negb];
      (split;
       [ intros Hx; first [discriminate | left; split; [reflexivity | tauto]]
       | intros [[_ ?]|[? _]]; first [reflexivity | tauto | discriminate] ]).
  - rewrite (bool_decide_eq_false_2 (t = StackDevfileType)) by done.
    destruct (decide (t = SampleDevfileType)) as [->|Hsample].
    + rewrite (bool_decide_eq_true_2 (SampleDevfileType = SampleDevfileType))
        by done.
      destruct (Git' c) as [git|].
      * repeat case_bool_decide; cbn [softViolation negb];
          (split;
           [ intros Hx;
             first [ discriminate
                   | right; split; [reflexivity |]; right; exists git;
                     by split ]
           | intros [[? _]|[_ [?|(g & ? & ?)]]];
             first [reflexivity | discriminate | by simplify_eq] ]).
      * cbn [softViolation negb]. split; [intros _; right; tauto | done].
    + rewrite (bool_decide_eq_false_2 (t = SampleDevfileType)) by done.
      repeat case_bool_decide; cbn [softViolation negb];
        (split; [done | intros [[? _]|[? _]]; done]).
Qed.

Lemma softMessage_iff (c : Schema) (t : DevfileType) :
  hardViolation c t = false →
  softMessage c t ≠ [] ↔
  Provider c = "" ∨ SupportUrl c = "" ∨ Architectures c = [].
Proof.
  unfold hardViolation, softMessage, validateIndexComponent.
  assert (Hlen : length (Architectures c) = 0%nat ↔ Architectures c = [])
    by (by destruct (Architectures c)).
  destruct (if bool_decide (t = StackDevfileType) then _ else _)
    as [err|] eqn:Hkind.
  - assert (softViolation err = false) as ->; [|done].
    revert Hkind. repeat case_bool_decide; try destruct (Git' c);
      repeat case_bool_decide; intros Hkind; by simplify_eq.
  - clear Hkind. intros _.
    destruct (decide (Provider c = "")) as [Hp|Hp];
      [rewrite (bool_decide_eq_true_2 _ Hp); cbn; split; [tauto | done] |].
    rewrite (bool_decide_eq_false_2 _ Hp).
    destruct (decide (SupportUrl c = "")) as [Hs|Hs];
      [rewrite (bool_decide_eq_true_2 _ Hs); cbn; split; [tauto | done] |].
    rewrite (bool_decide_eq_false_2 _ Hs).
    destruct (decide (Architectures c = [])) as [Ha|Ha].
    + rewrite bool_decide_eq_true_2 by (by apply Hlen).
      cbn; split; [tauto | done].
    + rewrite bool_decide_eq_false_2 by (by rewrite Hlen).
      split; [done | tauto].
Qed.

Lemma flat_map_softMessage (t : DevfileType) (es : list Schema) :
  flat_map (fun c => softMessage c t) (map (setType t) es)
  = flat_map (fun c => softMessage c (Type' c)) (map (setType t) es).
Proof. induction es as [|c es IH]; [done |]. cbn [map flat_map]. by f_equal. Qed.

Lemma entryPasses_iff (fs : FS) (samplesDir : path) (validateSamples : bool)
    (t : DevfileType) (c : Schema) :
  entryPasses fs samplesDir validateSamples t c = true ↔
  (t = SampleDevfileType → validateSamples = true →
   isOk (Stat fs (pjoin (Join samplesDir (Name c)) "devfile.yaml")) = true
   ∧ ParseAndValidate fs (pjoin (Join samplesDir (Name c)) "devfile.yaml")
     = None)
  ∧ hardViolation (setType t c) t = false.
Proof.
  unfold entryPasses, sampleDevfileError.
  rewrite andb_true_iff, negb_true_iff.
  assert (Htype : Type' (setType t c) = t) by done. rewrite Htype.
  apply and_iff_compat_r.
  destruct (decide (t = SampleDevfileType)) as [->|Ht].
  - rewrite bool_decide_eq_true_2 by done. cbn [andb].
    destruct validateSamples; [|by split].
    destruct (Stat fs _) as [n|err]; cbn [isNone isOk].
    + destruct (ParseAndValidate fs _) as [err|]; cbn [isNone].
      * split; [done |]. intros Hx. by destruct (Hx eq_refl eq_refl).
      * by split.
    + split; [done |]. intros Hx. by destruct (Hx eq_refl eq_refl).
  - rewrite bool_decide_eq_false_2 by done. by split.
Qed.

(** C2 (as the code has it): the validation policy is applied to the
    supplemental entries only.  Without force, the loader succeeds exactly
    when every entry passes: a sample, when the samples are cached, has a
    cached devfile that is there and that the devfile library accepts, and
    no entry has a hard violation; the loader then returns every entry,
    samples first, and has printed the message of each soft violation.  A
    sample whose cached devfile is missing or invalid, and an entry with a
    hard violation, make the loader fail, at once: it returns an error and
    has printed the messages of the entries before that one only.  Hard
    violations are an empty
    name, nil links or nil resources for a stack, and no git or more than
    one remote for a sample; the soft ones are a missing provider, a missing
    supportUrl and no architecture.  The entries are appended after the
    directory-derived ones. *)
Theorem supplemental_validation_policy (fs : FS) (registryDirPath : path)
    (extras : ExtraDevfileEntries) (out : list string) :
  ReadFile fs (pjoin registryDirPath extraDevfileEntries)
  = Ok (ExtraYaml extras) →
  let samplesDir := pjoin registryDirPath "samples" in
  let validateSamples := fileExists fs samplesDir in
  let entries :=
    map (setType SampleDevfileType) (Samples extras)
    ++ map (setType StackDevfileType) (Stacks extras) in
  (if forallb (entryPasses fs samplesDir validateSamples SampleDevfileType)
        (Samples extras)
      && forallb (entryPasses fs samplesDir validateSamples StackDevfileType)
           (Stacks extras)
   then parseExtraDevfileEntries fs registryDirPath false out
        = (out ++ flat_map (fun c => softMessage c (Type' c)) entries,
           Ok entries)
   else isOk (parseExtraDevfileEntries fs registryDirPath false out).2 = false)
  ∧ (∀ t c,
       entryPasses fs samplesDir validateSamples t c = true ↔
       (t = SampleDevfileType → validateSamples = true →
        isOk (Stat fs (pjoin (Join samplesDir (Name c)) "devfile.yaml")) = true
        ∧ ParseAndValidate fs (pjoin (Join samplesDir (Name c)) "devfile.yaml")
          = None)
       ∧ hardViolation (setType t c) t = false)
  ∧ (∀ c, c ∈ Samples extras → validateSamples = true →
       isOk (Stat fs (pjoin (Join samplesDir (Name c)) "devfile.yaml")) = false
       ∨ ParseAndValidate fs (pjoin (Join samplesDir (Name c)) "devfile.yaml")
         ≠ None →
       isOk (parseExtraDevfileEntries fs registryDirPath false out).2 = false)
  ∧ (∀ c, c ∈ entries → hardViolation c (Type' c) = true →
          isOk (parseExtraDevfileEntries fs registryDirPath false out).2
          = false)
  ∧ (∀ c t, hardViolation c t = true ↔
       (t = StackDevfileType
        ∧ (Name c = "" ∨ Links c = None ∨ Resources c = None))
       ∨ (t = SampleDevfileType
          ∧ (Git' c = None
             ∨ ∃ git, Git' c = Some git ∧ 1 < size (Remotes git))%nat))
  ∧ (∀ c t, hardViolation c t = false →
       softMessage c t ≠ [] ↔
       Provider c = "" ∨ SupportUrl c = "" ∨ Architectures c = [])
  ∧ (∀ index out' extra,
       parseDevfileRegistry fs registryDirPath false = Ok index →
       parseExtraDevfileEntries fs registryDirPath false out
       = (out', Ok extra) →
       GenerateIndexStruct fs registryDirPath false out
       = (out', (index ++ extra, None)))
  ∧ (∀ pre c post,
       Samples extras = pre ++ c :: post →
       forallb (entryPasses fs samplesDir validateSamples SampleDevfileType)
         pre = true →
       entryPasses fs samplesDir validateSamples SampleDevfileType c = false →
       ∃ err,
         parseExtraDevfileEntries fs registryDirPath false out
         = (out ++ flat_map (fun c => softMessage c (Type' c))
                     (map (setType SampleDevfileType) pre),
            Err err))
  ∧ (∀ pre c post,
       Stacks extras = pre ++ c :: post →
       forallb (entryPasses fs samplesDir validateSamples SampleDevfileType)
         (Samples extras) = true →
       forallb (entryPasses fs samplesDir validateSamples StackDevfileType)
         pre = true →
       entryPasses fs samplesDir validateSamples StackDevfileType c = false →
       ∃ err,
         parseExtraDevfileEntries fs registryDirPath false out
         = (out ++ flat_map (fun c => softMessage c (Type' c))
                     (map (setType SampleDevfileType) (Samples extras)
                      ++ map (setType StackDevfileType) pre),
            Err err)).
Proof.
  intros Hread samplesDir validateSamples entries.
  assert (Hcases :
    if forallb (entryPasses fs samplesDir validateSamples SampleDevfileType)
         (Samples extras)
       && forallb (entryPasses fs samplesDir validateSamples StackDevfileType)
            (Stacks extras)
    then parseExtraDevfileEntries fs registryDirPath false out
         = (out ++ flat_map (fun c => softMessage c (Type' c)) entries,
            Ok entries)
    else isOk (parseExtraDevfileEntries fs registryDirPath false out).2
         = false).
  { unfold parseExtraDevfileEntries. rewrite Hread. cbn [unmarshalExtra].
    fold samplesDir.
    change (match Stat fs samplesDir with
            | Ok _ => true
            | Err err => negb (IsNotExist err)
            end) with validateSamples.
    destruct (forallb _ (Samples extras)) eqn:Hs; cbn [andb].
    - rewrite (extraEntriesLoop_passes _ _ _ _ _ _ _ Hs). cbn [app].
      destruct (forallb _ (Stacks extras)) eqn:Ht.
      + rewrite (extraEntriesLoop_passes _ _ _ _ _ _ _ Ht).
        unfold entries.
        by rewrite flat_map_app, <- app_assoc, !flat_map_softMessage.
      + by apply extraEntriesLoop_fails.
    - pose proof (extraEntriesLoop_fails fs samplesDir validateSamples
                    SampleDevfileType (Samples extras) out [] Hs) as Hf.
      by destruct (extraEntriesLoop _ _ _ _ _ (Samples extras) _ _)
        as [out' [idx|err]]. }
  assert (Hfails : ∀ c,
    (c ∈ Samples extras
     ∧ entryPasses fs samplesDir validateSamples SampleDevfileType c = false)
    ∨ (c ∈ Stacks extras
       ∧ entryPasses fs samplesDir validateSamples StackDevfileType c = false) →
    isOk (parseExtraDevfileEntries fs registryDirPath false out).2 = false).
  { intros c Hc.
    destruct (forallb _ (Samples extras) && forallb _ (Stacks extras))
      eqn:Hall; [|done].
    exfalso. apply andb_true_iff in Hall as [Hs Ht].
    rewrite forallb_forall in Hs, Ht.
    destruct Hc as [[Hc Hp] | [Hc Hp]].
    - rewrite (Hs c) in Hp; [done | by apply list_elem_of_In].
    - rewrite (Ht c) in Hp; [done | by apply list_elem_of_In]. }
  assert (Hunfold :
    parseExtraDevfileEntries fs registryDirPath false out
    = match extraEntriesLoop fs samplesDir validateSamples false
              SampleDevfileType (Samples extras) out [] with
      | (out, Err err) => (out, Err err)
      | (out, Ok index) =>
          extraEntriesLoop fs samplesDir validateSamples false
            StackDevfileType (Stacks extras) out index
      end).
  { unfold parseExtraDevfileEntries. rewrite Hread. cbn [unmarshalExtra].
    reflexivity. }
  split; [exact Hcases |].
  split; [| split; [| split; [| split; [| split; [| split; [| split]]]]]].
  - intros t c. apply entryPasses_iff.
  - intros c Hc Hcached Hbad. apply (Hfails c). left. split; [done |].
    apply not_true_is_false. intros Hp%entryPasses_iff.
    destruct Hp as [Hp _]. destruct (Hp eq_refl Hcached) as [Hstat Hvalid].
    destruct Hbad as [Hbad | Hbad]; [congruence | done].
  - intros c Hc Hhard.
    apply elem_of_app in Hc
      as [(c0 & -> & Hc0)%list_elem_of_fmap | (c0 & -> & Hc0)%list_elem_of_fmap].
    + apply (Hfails c0). left. split; [done |].
      apply not_true_is_false. intros [_ Hp]%entryPasses_iff.
      change (Type' (setType SampleDevfileType c0)) with SampleDevfileType
        in Hhard. congruence.
    + apply (Hfails c0). right. split; [done |].
      apply not_true_is_false. intros [_ Hp]%entryPasses_iff.
      change (Type' (setType StackDevfileType c0)) with StackDevfileType
        in Hhard. congruence.
  - apply hardViolation_iff.
  - apply softMessage_iff.
  - intros index out' extra Hreg Hextra. unfold GenerateIndexStruct.
    rewrite Hreg, Hextra.
    assert (fileExists fs (pjoin registryDirPath extraDevfileEntries) = true)
      as ->; [|done].
    unfold ReadFile in Hread.
    destruct (fsLookup fs (pjoin registryDirPath extraDevfileEntries))
      as [n|] eqn:Hl; [|done].
    by eapply fileExists_lookup.
  - intros pre c post Hsamples Hpre Hc. rewrite Hunfold, Hsamples.
    destruct (extraEntriesLoop_stops fs samplesDir validateSamples
                SampleDevfileType pre c post out [] Hpre Hc) as (err & ->).
    exists err. by rewrite flat_map_softMessage.
  - intros pre c post Hstacks Hsamples Hpre Hc. rewrite Hunfold.
    rewrite (extraEntriesLoop_passes _ _ _ _ _ _ _ Hsamples), Hstacks.
    destruct (extraEntriesLoop_stops fs samplesDir validateSamples
                StackDevfileType pre c post
                (out ++ flat_map (fun c => softMessage c SampleDevfileType)
                          (map (setType SampleDevfileType) (Samples extras)))
                ([] ++ map (setType SampleDevfileType) (Samples extras))
                Hpre Hc) as (err & ->).
    exists err. by rewrite flat_map_app, <- app_assoc, !flat_map_softMessage.
Qed.

End SupplementalProperties.

(** ** Remote stack fetcher *)

Section FetchProperties.

Context `{remote : !Remote}.

Lemma cloneAttempts_app (w w' : World) :
  cloneAttempts (w ++ w') = cloneAttempts w ++ cloneAttempts w'.
Proof. unfold cloneAttempts. apply omap_app. Qed.

Lemma cloneAttempts_clone (w : World) (dst : path) (isBare : bool)
    (o : CloneOptions) :
  cloneAttempts (w ++ [EvPlainClone dst isBare o]) = cloneAttempts w ++ [o].
Proof. by rewrite cloneAttempts_app. Qed.

Lemma cloneAttempts_remove (w : World) (p : path) :
  cloneAttempts (w ++ [EvRemoveAll p]) = cloneAttempts w.
Proof. rewrite cloneAttempts_app. apply app_nil_r. Qed.

Lemma afterClone_attempts (git : Git) (dst originalPath : path) (w : World) :
  cloneAttempts (afterClone git dst originalPath w).1 = cloneAttempts w.
Proof.
  unfold afterClone, osRemoveAll, GitSubDir, Printf.
  destruct (removeOutcome w (pjoin dst ".git"));
    destruct (bool_decide (SubDir git = "")); cbn [negb];
    repeat match goal with
           | |- context [subDirOutcome ?a ?b ?c ?d] =>
               destruct (subDirOutcome a b c d)
           end;
    cbn [fst]; rewrite ?cloneAttempts_app; cbn; by rewrite ?app_nil_r.
Qed.

(** The branch-then-tag policy, for a revision that is not a commit hash
    and a stack fetched whole: one clone of the branch (of the default
    branch when there is no revision); a second one, of the tag, exactly
    when the first finds no matching reference and a revision is given; the
    error of the last failed clone is returned. *)
Lemma branch_then_tag (git : Git) (dst : path) (verbose : bool) (w : World) :
  IsHash (Revision git) = false → SubDir git = "" →
  let revision := Revision git in
  let first :=
    mkCloneOptions (Url git) (RemoteName git)
      (if bool_decide (revision = "") then ""
       else NewBranchReferenceName revision) true 1 in
  let second := setReferenceName (NewTagReferenceName revision) first in
  let w1 := w ++ [EvPlainClone dst false first] in
  let w2 := w1 ++ [EvRemoveAll (pjoin dst ".git")] in
  let r := downloadRemoteStack git dst verbose w in
  match cloneOutcome w dst first with
  | None => cloneAttempts r.1 = cloneAttempts w ++ [first]
  | Some NoMatchingRefSpecError =>
      if bool_decide (revision = "") then
        cloneAttempts r.1 = cloneAttempts w ++ [first]
        ∧ r.2 = Some NoMatchingRefSpecError
      else
        cloneAttempts r.1 = cloneAttempts w ++ [first; second]
        ∧ (∀ err, cloneOutcome w2 dst second = Some err → r.2 = Some err)
  | Some err => cloneAttempts r.1 = cloneAttempts w ++ [first]
                ∧ r.2 = Some err
  end.
Proof.
  destruct git as [remotes url remoteName subDir revision].
  cbn [Revision SubDir Url RemoteName]. intros Hhash ->. cbv zeta.
  unfold downloadRemoteStack. cbn [Revision SubDir Url RemoteName].
  rewrite Hhash. rewrite (bool_decide_eq_true_2 ("" = "")) by done.
  cbn [negb]. unfold PlainClone, osRemoveAll.
  destruct (decide (revision = "")) as [->|Hrev].
  - rewrite !(bool_decide_eq_true_2 ("" = "")) by done.
    cbn [negb orb].
    destruct (cloneOutcome w dst _) as [[]|]; cbn [fst snd orb negb];
      rewrite ?orb_true_r, ?afterClone_attempts, ?cloneAttempts_clone;
      cbn [fst snd]; rewrite ?cloneAttempts_clone; done.
  - rewrite !(bool_decide_eq_false_2 _ Hrev).
    cbn [negb orb].
    destruct (cloneOutcome w dst _) as [[]|] eqn:Hfirst; cbn [fst snd orb negb];
      rewrite ?afterClone_attempts, ?cloneAttempts_clone; try done.
    match goal with
    | |- context [cloneOutcome ?w2 dst ?o] =>
        destruct (cloneOutcome w2 dst o) as [err|] eqn:Hsecond
    end; cbn [fst snd];
      rewrite ?afterClone_attempts, !cloneAttempts_clone,
        cloneAttempts_remove, cloneAttempts_clone, <- app_assoc;
      (split; [reflexivity |]).
    + by intros err' [= <-].
    + intros err' Herr. discriminate.
Qed.

(** C6, at a commit hash: the revision is blanked, but the reference name
    computed from it before is kept, so the one clone that is made asks for
    the hash as a reference, where a fetch with no revision asks for the
    empty (default) reference; on a remote on which the default branch can
    be cloned, the first fails with no matching reference and the second
    succeeds. *)
Theorem hash_revision_clone_reference (url remoteName : string) (dst : path)
    (verbose : bool) :
  let pinned := mkGit ∅ url remoteName "" commitHash in
  let unpinned := mkGit ∅ url remoteName "" "" in
  IsHash commitHash = true
  ∧ map ReferenceName
      (cloneAttempts (downloadRemoteStack pinned dst verbose []).1)
    = [commitHash]
  ∧ map ReferenceName
      (cloneAttempts (downloadRemoteStack unpinned dst verbose []).1)
    = [""]
  ∧ (@downloadRemoteStack sampleRemote pinned dst verbose []).2
    = Some NoMatchingRefSpecError
  ∧ (@downloadRemoteStack sampleRemote unpinned dst verbose []).2 = None.
Proof.
  cbv zeta.
  assert (Hhash : IsHash commitHash = true) by (vm_compute; reflexivity).
  assert (Hnone : IsHash "" = false) by (vm_compute; reflexivity).
  split; [exact Hhash |]. split; [| split; [| split]].
  - unfold downloadRemoteStack. cbn [Revision SubDir Url RemoteName].
    rewrite Hhash. rewrite !(bool_decide_eq_true_2 ("" = "")) by done.
    cbn [negb orb]. unfold PlainClone, Printf.
    destruct (cloneOutcome _ dst _) as [err|]; cbn [fst snd];
      rewrite ?orb_true_r, ?afterClone_attempts; cbn [fst snd];
      by rewrite cloneAttempts_clone.
  - unfold downloadRemoteStack. cbn [Revision SubDir Url RemoteName].
    rewrite Hnone. rewrite !(bool_decide_eq_true_2 ("" = "")) by done.
    cbn [negb orb]. unfold PlainClone.
    destruct (cloneOutcome _ dst _) as [err|]; cbn [fst snd];
      rewrite ?orb_true_r, ?afterClone_attempts; cbn [fst snd];
      by rewrite cloneAttempts_clone.
  - vm_compute. reflexivity.
  - vm_compute. reflexivity.
Qed.

End FetchProperties.

(** ** The properties on the sample inputs

    The sample file systems have no fault of their own. *)

#[local] Existing Instance noFaults.

Lemma supplemental_validation_policy_witness :
  @parseExtraDevfileEntries noFaults referenceLibrary
    cachedRegistry ["registry"]
    false []
  = (["the nodejs-basic devfile has no provider mentioned" +:+ newline],
     Ok (map (setType SampleDevfileType) (Samples sampleExtras)))
  ∧ (fileExists staleRegistry ["registry"; "samples"] = true
     ∧ Stat staleRegistry
         ["registry"; "samples"; "nodejs-basic"; "devfile.yaml"]
       = Err (PathError "stat" "registry/samples/nodejs-basic/devfile.yaml")
     ∧ @parseExtraDevfileEntries noFaults referenceLibrary staleRegistry
         ["registry"] false []
       = ([], Err (Errorf ("nodejs-basic devfile sample does not have a "
                           +:+ "devfile.yaml: stat registry/samples/"
                           +:+ "nodejs-basic/devfile.yaml: "
                           +:+ "no such file or directory")))
     ∧ isOk (@parseExtraDevfileEntries noFaults referenceLibrary staleRegistry
               ["registry"] false []).2 = false)
  ∧ (@ParseAndValidate referenceLibrary invalidCacheRegistry
       ["registry"; "samples"; "nodejs-basic"; "devfile.yaml"]
     = Some (Errorf "schemaVersion not present in devfile")
     ∧ isOk (@parseExtraDevfileEntries noFaults referenceLibrary
               invalidCacheRegistry
               ["registry"] false []).2 = false)
  ∧ (validateIndexComponent (setType StackDevfileType mavenEntry)
       StackDevfileType
     = Some (Errorf "index component links are empty")
     ∧ @parseExtraDevfileEntries noFaults referenceLibrary strictRegistry
         ["registry"] false []
       = ([], Err (Errorf ("java-maven index component is not valid: "
                           +:+ "index component links are empty")))
     ∧ isOk (@parseExtraDevfileEntries noFaults referenceLibrary
               strictRegistry ["registry"] false []).2 = false).
Proof.
  split; [| split; [| split]].
  - pose proof (@supplemental_validation_policy noFaults referenceLibrary
                  cachedRegistry ["registry"] sampleExtras [] eq_refl)
      as [H _].
    exact H.
  - split; [reflexivity |]. split; [reflexivity |]. split; [reflexivity |].
    pose proof (@supplemental_validation_policy noFaults referenceLibrary
                  staleRegistry ["registry"] sampleExtras [] eq_refl)
      as (_ & _ & H & _).
    apply (H (hd zeroSchema (Samples sampleExtras)));
      [left | reflexivity | left; reflexivity].
  - split; [reflexivity |].
    pose proof (@supplemental_validation_policy noFaults referenceLibrary
                  invalidCacheRegistry ["registry"] sampleExtras [] eq_refl)
      as (_ & _ & H & _).
    apply (H (hd zeroSchema (Samples sampleExtras)));
      [left | reflexivity | right; discriminate].
  - split; [reflexivity |]. split; [reflexivity |].
    pose proof (@supplemental_validation_policy noFaults referenceLibrary
                  strictRegistry ["registry"] (mkExtra [] [mavenEntry]) []
                  eq_refl)
      as (_ & _ & _ & H & _).
    apply (H (setType StackDevfileType mavenEntry)); [left | reflexivity].
Defined.

(** C2 as stated fails: both directory-derived entries of the sample
    registry have nil links, a hard violation of the policy, and the build
    without force returns them with no error. *)
Lemma directory_entries_not_validated :
  resultMap (map (fun e => validateIndexComponent e StackDevfileType))
    (@parseDevfileRegistry noFaults referenceLibrary
       sampleRegistry ["registry"] false)
  = Ok [Some (Errorf "index component links are empty");
        Some (Errorf "index component links are empty")]
  ∧ (@GenerateIndexStruct noFaults referenceLibrary
       sampleRegistry ["registry"] false
       []).2.2 = None.
Proof. split; vm_compute; reflexivity. Qed.

Lemma entry_scalars_first_writer_witness :
  match @stackComponent noFaults referenceLibrary
          sampleRegistry stacksDir "nodejs"
          false with
  | Ok e =>
      ∃ e0 inps,
        manifestOf sampleRegistry (pjoin stacksDir "nodejs") false e0
        ∧ Forall2 (@readsVersion noFaults referenceLibrary sampleRegistry
                     (pjoin stacksDir "nodejs") false) (Versions e0) inps
        ∧ (∀ f, scalar f e
                = firstNonEmpty
                    (scalar f e0
                     :: map (fun d => scalar f (Meta d))
                          (processedDevfiles inps)))
        ∧ (∀ f, scalar f e0 ≠ "" → scalar f e = scalar f e0)
        ∧ (fileExists sampleRegistry
             (pjoin (pjoin stacksDir "nodejs") stackYaml) = false →
           ∀ f, scalar f e0 = "")
  | Err _ => False
  end.
Proof.
  destruct (@stackComponent noFaults referenceLibrary
              sampleRegistry stacksDir "nodejs"
              false) as [e|err] eqn:Hstack.
  - exact (@entry_scalars_first_writer noFaults referenceLibrary sampleRegistry
             stacksDir "nodejs" false e Hstack).
  - vm_compute in Hstack. discriminate Hstack.
Defined.

(** C3 as stated fails: the first processed version of the nodejs stack
    supplies the display name "Node.js 1.0", and the entry keeps the one of
    its manifest. *)
Lemma manifest_display_name_wins :
  resultMap DisplayName
    (@stackComponent noFaults referenceLibrary
       sampleRegistry stacksDir "nodejs" false)
  = Ok "Node.js Runtime"
  ∧ ReadFile sampleRegistry
      (pjoin (pjoin (pjoin stacksDir "nodejs") "1.0.0") devfile)
    = Ok (DevfileYaml nodejsDevfile1)
  ∧ DisplayName (Meta nodejsDevfile1) = "Node.js 1.0".
Proof. repeat split; vm_compute; reflexivity. Qed.

Lemma entry_tags_union_witness :
  match @stackComponent noFaults referenceLibrary
          sampleRegistry stacksDir "nodejs"
          false with
  | Ok e =>
      (Tags nodejsManifest = ["Community"; "Community"]
       ∧ map vTags (Versions e) = [["Node.js"; "Express"]; ["Node.js"]]
       ∧ Tags e = ["Community"; "Community"; "Node.js"; "Express"]
       ∧ Architectures nodejsManifest = []
       ∧ map vArchitectures (Versions e) = [["amd64"]; ["amd64"; "arm64"]]
       ∧ Architectures e = ["amd64"; "arm64"])
      ∧ ∃ e0 inps,
          manifestOf sampleRegistry (pjoin stacksDir "nodejs") false e0
          ∧ Forall2 (@readsVersion noFaults referenceLibrary sampleRegistry
                       (pjoin stacksDir "nodejs") false) (Versions e0) inps
          ∧ (let tags := concat (map vTags (processedProps inps)) in
             Tags e = Tags e0
                      ++ filter (fun x => x ∉ Tags e0) (firstOccurrences tags)
             ∧ (∀ x, x ∈ Tags e ↔
                     x ∈ Tags e0
                     ∨ ∃ v, v ∈ processedProps inps ∧ x ∈ vTags v)
             ∧ (NoDup (Tags e0) → NoDup (Tags e)))
          ∧ (let archs := concat (map vArchitectures (processedProps inps)) in
             Architectures e
             = Architectures e0
               ++ filter (fun x => x ∉ Architectures e0)
                    (firstOccurrences archs)
             ∧ (∀ x, x ∈ Architectures e ↔
                     x ∈ Architectures e0
                     ∨ ∃ v, v ∈ processedProps inps ∧ x ∈ vArchitectures v)
             ∧ (NoDup (Architectures e0) → NoDup (Architectures e)))
          ∧ (∀ (init : list string) (lists lists' : list (list string)),
               lists ≡ₚ lists' →
               ∀ x, x ∈ appendMissing init (concat lists)
                    ↔ x ∈ appendMissing init (concat lists'))
  | Err _ => False
  end.
Proof.
  destruct (@stackComponent noFaults referenceLibrary
              sampleRegistry stacksDir "nodejs"
              false) as [e|err] eqn:Hstack.
  - split.
    + vm_compute in Hstack. injection Hstack as <-.
      repeat split; vm_compute; reflexivity.
    + exact (@entry_tags_union noFaults referenceLibrary
               sampleRegistry stacksDir
               "nodejs" false e Hstack).
  - vm_compute in Hstack. discriminate Hstack.
Defined.

(** C4 as stated fails: the tags of the nodejs entry hold the tag of the
    manifest, twice as the manifest lists it, although no version has it. *)
Lemma manifest_tags_in_entry :
  resultMap Tags
    (@stackComponent noFaults referenceLibrary
       sampleRegistry stacksDir "nodejs" false)
  = Ok ["Community"; "Community"; "Node.js"; "Express"]
  ∧ resultMap (fun e => map vTags (Versions e))
      (@stackComponent noFaults referenceLibrary
         sampleRegistry stacksDir "nodejs"
         false)
    = Ok [["Node.js"; "Express"]; ["Node.js"]].
Proof. split; vm_compute; reflexivity. Qed.

Lemma manifest_structural_check_witness :
  versionDirsReachable brokenRegistry (pjoin stacksDir "quarkus")
    (Versions quarkusManifest) = true
  ∧ fileExists brokenRegistry (pjoin (pjoin stacksDir "quarkus") stackYaml)
    = true
  ∧ parseStackInfo brokenRegistry (pjoin (pjoin stacksDir "quarkus") stackYaml)
    = Ok quarkusManifest
  ∧ defaultCount (Versions quarkusManifest) = 0%nat
  ∧ validateStackInfo brokenRegistry quarkusManifest
      (pjoin stacksDir "quarkus")
    = Returns [Errorf "stack.yaml does not contain a default version"]
  ∧ @stackComponent noFaults referenceLibrary
      brokenRegistry stacksDir "quarkus" false
    = Err (Errorf ("quarkus" +:+ " stack.yaml is not valid: "
                   +:+ showErrors
                         [Errorf "stack.yaml does not contain a default version"]))
  ∧ isOk (@parseDevfileRegistry noFaults referenceLibrary
            brokenRegistry ["registry"]
            false) = false.
Proof.
  pose proof (@manifest_structural_check noFaults referenceLibrary
                brokenRegistry
                quarkusManifest ["registry"] "quarkus" eq_refl)
    as (errors & Hret & Hiff & Habort).
  assert (Herrors : errors
                    = [Errorf "stack.yaml does not contain a default version"]).
  { vm_compute in Hret. by injection Hret as <-. }
  subst errors.
  destruct (Habort eq_refl eq_refl ltac:(done)) as [Hstack Hbuild].
  split; [reflexivity |]. split; [reflexivity |]. split; [reflexivity |].
  split; [reflexivity |]. split; [exact Hret |]. split; [exact Hstack |].
  apply (Hbuild (entries brokenRegistry stacksDir)); [reflexivity |].
  vm_compute. left.
Defined.

Lemma devfile_location_witness :
  @parseStackDevfile noFaults referenceLibrary ambiguousRegistry
    (pjoin stacksDir "python") "python" false zeroVersion zeroSchema
  = Err (Errorf ("both registry/stacks/python/devfile.yaml and "
                 +:+ "registry/stacks/python/.devfile.yaml exist"))
  ∧ devfilePathOf ambiguousRegistry (pjoin stacksDir "rust")
    = Ok (pjoin (pjoin stacksDir "rust") devfileHidden)
  ∧ isOk (@parseStackDevfile noFaults referenceLibrary ambiguousRegistry
            (pjoin stacksDir "rust") "rust" false zeroVersion zeroSchema)
    = true
  ∧ isOk (@parseDevfileRegistry noFaults referenceLibrary ambiguousRegistry
            ["registry"] false) = false.
Proof.
  pose proof (@devfile_location noFaults referenceLibrary ambiguousRegistry
                (pjoin stacksDir "python") "python" false zeroVersion
                zeroSchema) as (Hboth & _ & Hbuild).
  pose proof (@devfile_location noFaults referenceLibrary ambiguousRegistry
                (pjoin stacksDir "rust") "rust" false zeroVersion
                zeroSchema) as (_ & Hhidden & _).
  split; [exact (Hboth eq_refl eq_refl) |].
  split; [exact (proj1 (Hhidden eq_refl eq_refl)) |].
  split; [vm_compute; reflexivity |].
  apply (Hbuild ["registry"] (entries ambiguousRegistry stacksDir) "python");
    [reflexivity | | reflexivity | reflexivity | left; by split].
  vm_compute. right. left.
Defined.

Lemma directory_entries_invariant_witness :
  match @parseDevfileRegistry noFaults referenceLibrary
          sampleRegistry ["registry"]
          false with
  | Ok index =>
      map (fun e => map (fun v => (selfOf v, vResources v)) (Versions e)) index
      = [ [ (Some "devfile-catalog/nodejs:1.0.0", ["devfile.yaml"]);
            (Some "devfile-catalog/nodejs:2.0.0", ["devfile.yaml"]) ];
          [ (Some "devfile-catalog/go:", ["devfile.yaml"]) ] ]
      ∧ ∃ stackDir,
          ReadDir sampleRegistry (pjoin ["registry"] "stacks") = Ok stackDir
          ∧ Forall2
              (fun f e =>
                 let folder :=
                   pjoin (pjoin ["registry"] "stacks") (fiName f) in
                 ∃ e0 inps,
                   manifestOf sampleRegistry folder false e0
                   ∧ Forall2 (@readsVersion noFaults referenceLibrary
                                sampleRegistry
                                folder false) (Versions e0) inps
                   ∧ Type' e = StackDevfileType
                   ∧ length (Versions e) = length (Versions e0)
                   ∧ defaultCount (Versions e) = 1%nat
                   ∧ Links e = Links e0 ∧ Resources e = Resources e0
                   ∧ (∀ i v0 inp,
                        Versions e0 !! i = Some v0 →
                        inps !! i = Some (Some inp) →
                        ∃ v name,
                          Versions e !! i = Some v
                          ∧ vGit v0 = None
                          ∧ (name = devfile ∨ name = devfileHidden)
                          ∧ devfilePathOf sampleRegistry
                              (Join folder (vVersion v0))
                            = Ok (Join folder (vVersion v0) ++ [name])
                          ∧ ReadFile sampleRegistry
                              (Join folder (vVersion v0) ++ [name])
                            = Ok (DevfileYaml (viDevfile inp))
                          ∧ selfOf v = Some (selfLink (fiName f) (vVersion v))
                          ∧ vResources v
                            = vResources (viProp inp)
                              ++ regularFiles (viFiles inp)
                          ∧ name ∈ vResources v)
                   ∧ (∀ i v0,
                        Versions e0 !! i = Some v0 →
                        (vGit v0 = None ↔ ∃ inp, inps !! i = Some (Some inp))
                        ∧ (vGit v0 ≠ None → Versions e !! i = Some v0))
                   ∧ (fileExists sampleRegistry (pjoin folder stackYaml) = true
                      → Name e = Name e0 ∧ Name e ≠ "")
                   ∧ (fileExists sampleRegistry (pjoin folder stackYaml)
                      = false →
                      Links e = None ∧ Resources e = None
                      ∧ ∃ p d md,
                          devfilePathOf sampleRegistry folder = Ok p
                          ∧ ReadFile sampleRegistry p = Ok (DevfileYaml d)
                          ∧ @ParseDevfileAndValidate referenceLibrary
                              sampleRegistry p = Ok md
                          ∧ mdName md ≠ "" ∧ Name e = Name (Meta d)))
              (filter (fun f => IsDir f = true) stackDir) index
  | Err _ => False
  end.
Proof.
  destruct (@parseDevfileRegistry noFaults referenceLibrary
              sampleRegistry ["registry"]
              false) as [index|err] eqn:Hreg.
  - split.
    + vm_compute in Hreg. injection Hreg as <-. vm_compute. reflexivity.
    + exact (@directory_entries_invariant noFaults referenceLibrary
               sampleRegistry
               ["registry"] index Hreg).
  - vm_compute in Hreg. discriminate Hreg.
Defined.

(** C8 as stated fails: the two stack entries of the sample registry come
    out of a successful build with nil links and nil resources. *)
Lemma stack_entries_without_links :
  resultMap (map (fun e => (Type' e, Links e, Resources e)))
    (@parseDevfileRegistry noFaults referenceLibrary
       sampleRegistry ["registry"] false)
  = Ok [(StackDevfileType, None, None); (StackDevfileType, None, None)].
Proof. vm_compute. reflexivity. Qed.

Lemma version_self_link_witness :
  match @stackComponent noFaults referenceLibrary
          sampleRegistry stacksDir "nodejs"
          false with
  | Ok e =>
      map selfOf (Versions e)
      = [Some "devfile-catalog/nodejs:1.0.0";
         Some "devfile-catalog/nodejs:2.0.0"]
      ∧ ∃ e0 inps,
          manifestOf sampleRegistry (pjoin stacksDir "nodejs") false e0
          ∧ Forall2 (@readsVersion noFaults referenceLibrary sampleRegistry
                       (pjoin stacksDir "nodejs") false) (Versions e0) inps
          ∧ ∀ i inp,
              inps !! i = Some (Some inp) →
              ∃ v, Versions e !! i = Some v
                   ∧ vVersion v = vVersion (viProp inp)
                   ∧ selfOf v = Some (selfLink "nodejs" (vVersion v))
  | Err _ => False
  end.
Proof.
  destruct (@stackComponent noFaults referenceLibrary
              sampleRegistry stacksDir "nodejs"
              false) as [e|err] eqn:Hstack.
  - split.
    + vm_compute in Hstack. injection Hstack as <-. vm_compute. reflexivity.
    + exact (@version_self_link noFaults referenceLibrary
               sampleRegistry stacksDir
               "nodejs" false e Hstack).
  - vm_compute in Hstack. discriminate Hstack.
Defined.

(** C9 as stated fails: the devfile of the legacy stack go declares no
    version, and the link of its single version ends with an empty
    identifier, not with latest. *)
Lemma legacy_self_link_without_latest :
  resultMap (fun e => map (fun v => (vVersion v, selfOf v)) (Versions e))
    (@stackComponent noFaults referenceLibrary
       sampleRegistry stacksDir "go" false)
  = Ok [("", Some "devfile-catalog/go:")]
  ∧ fileExists sampleRegistry (pjoin (pjoin stacksDir "go") stackYaml) = false
  ∧ Version' (Meta goDevfile) = "".
Proof. repeat split; vm_compute; reflexivity. Qed.

Lemma default_flag_preserved_witness :
  match @parseStackDevfile noFaults referenceLibrary sampleRegistry
          (pjoin (pjoin stacksDir "nodejs") "1.0.0") "nodejs" false
          (declared "1.0.0" true) nodejsManifest with
  | Ok (versionComponent', indexComponent') =>
      vDefault versionComponent' = true
  | Err _ => False
  end.
Proof.
  destruct (@parseStackDevfile noFaults referenceLibrary sampleRegistry
              (pjoin (pjoin stacksDir "nodejs") "1.0.0") "nodejs" false
              (declared "1.0.0" true) nodejsManifest)
    as [[vc' ic']|err] eqn:Hparse.
  - exact (proj1 (@default_flag_preserved noFaults referenceLibrary
                    sampleRegistry _ _
                    _ _ _ _ _ Hparse)).
  - vm_compute in Hparse. discriminate Hparse.
Defined.

Lemma branch_then_tag_witness :
  IsHash "v1.0.0" = false
  ∧ map ReferenceName
      (cloneAttempts
         (@downloadRemoteStack sampleRemote
            (mkGit ∅ "https://example.com/stack.git" "origin" "" "v1.0.0")
            ["work"] false []).1)
    = ["refs/heads/v1.0.0"; "refs/tags/v1.0.0"]
  ∧ (@downloadRemoteStack sampleRemote
       (mkGit ∅ "https://example.com/stack.git" "origin" "" "v1.0.0")
       ["work"] false []).2 = None.
Proof.
  split; [reflexivity |].
  pose proof (@branch_then_tag sampleRemote
                (mkGit ∅ "https://example.com/stack.git" "origin" "" "v1.0.0")
                ["work"] false [] eq_refl eq_refl) as H.
  cbv zeta in H.
  change (@cloneOutcome sampleRemote [] ["work"] _)
    with (Some NoMatchingRefSpecError) in H.
  change (bool_decide (Revision _ = "")) with false in H.
  destruct H as [H _]. split; [by rewrite H | vm_compute; reflexivity].
Defined.
